(** * Credential lifecycle of the Outlook events portal

    A shallow embedding of [authentication/auth.go] (package
    [authentication]) together with the one call [main.go] makes into it,
    and the properties of the credential store, the token exchanges, the
    persistence adapter and the refresh loop.

    The Go package keeps its state in package-level variables and talks to
    the outside (token endpoint, file system, clock, browser, logger,
    HTTP response writer).  Both are threaded explicitly: a [state] record
    holds the package variables and the part of the world the package can
    observe, and every Go function becomes a computation [M A] that may
    return, panic, exit the process or block on a held mutex. *)

From Stdlib Require Import ZArith String List Bool DecimalString.
From stdpp Require Import base option gmap strings.

Local Open Scope Z_scope.
Local Open Scope string_scope.

(** ** Data model (auth.go, lines 19-55) *)

(** [GraphAuthentication]: [ExpiresIn] is a [uint16], kept as a [Z] in
    [0, 65535]; arithmetic on it wraps modulo [2^16]. *)
Record GraphAuthentication := mkGraphAuthentication {
  Token : string;
  Scope : string;
  ExpiresIn : Z;
  AccessToken : string;
  RefreshToken : string
}.

(** [GraphAuthentication{}], the Go zero value. *)
Definition zero_GraphAuthentication : GraphAuthentication :=
  {| Token := ""; Scope := ""; ExpiresIn := 0; AccessToken := ""; RefreshToken := "" |}.

#[global] Instance GraphAuthentication_eq_dec : EqDecision GraphAuthentication.
Proof. solve_decision. Defined.

(** [CredentialStorage]: [lock] is [true] while the mutex is held;
    [expiresTimestamp] is a point on the clock, in nanoseconds. *)
Record CredentialStorage := mkCredentialStorage {
  lock : bool;
  credentials : GraphAuthentication;
  expiresTimestamp : Z;
  authenticated : bool
}.

(** [CredentialStorage{}]. *)
Definition zero_CredentialStorage : CredentialStorage :=
  {| lock := false; credentials := zero_GraphAuthentication;
     expiresTimestamp := 0; authenticated := false |}.

Record OauthConfig := mkOauthConfig {
  ClientID : string;
  ClientSecret : string;
  TenantID : string;
  ServerProtocol : string;
  ServerHost : string;
  ServerPort : Z
}.

Record CredentialsConfig := mkCredentialsConfig {
  Browser : bool;
  Persist : bool;
  StoragePath : string
}.

(** The [Logger] interface.  Its five methods write a record; what tells
    implementations apart for this package is whether [Fatal] ends the
    process (logrus, which [main.go] passes in, calls [os.Exit(1)]). *)
Record Logger := mkLogger { fatal_exits : bool }.

Definition logrus : Logger := {| fatal_exits := true |}.

(** A [*CredentialStorage].  The package has a single store, the variable
    [graphCredentialStorage]; a pointer is nil or its address. *)
Inductive ptr := nil_ptr | addr_graphCredentialStorage.

(** Go's [error]: [None] is [nil]. *)
Definition error := option string.

(** ** The observable world *)

Inductive level := DebugLevel | InfoLevel | WarnLevel | ErrorLevel | FatalLevel.

(** What the package does to the outside, in order.  Log records keep the
    constant part of the format string. *)
Inductive event :=
| EvLog (l : level) (msg : string)
| EvPrintf (msg : string)
| EvHandleFunc (pattern : string)
| EvPostForm (url : string) (data : list (string * string))
| EvExec (name arg : string)
| EvRedirect (target : string) (status : Z)
| EvFprint (html : string)
| EvSleep (d : Z)
| EvGo_refreshTokenManager.

(** What [json.NewDecoder(resp.Body).Decode(&graphAuth)] makes of a
    response body: an error, or the decoded struct (absent keys leave the
    zero value, unknown keys are skipped, a number outside [uint16] is an
    error). *)
Inductive body := Malformed | Json (graphAuth : GraphAuthentication).

(** What [http.PostForm] returns: a non-nil [err], or a response. *)
Inductive post_result :=
| TransportError
| Response (StatusCode : Z) (Body : body).

(** Package variables (auth.go, lines 57-65) and the world. *)
Record state := mkState {
  oauthConfig : OauthConfig;
  credentialsConfig : CredentialsConfig;
  graphCredentialStorage : CredentialStorage;
  refreshTokenManagerRunning : bool;
  logger : option Logger;
  files : gmap string string;       (* file name to content *)
  create_fails : gset string;       (* names on which os.Create errs *)
  write_fails : gset string;        (* names on which WriteString errs *)
  close_fails : gset string;        (* names on which Close errs *)
  exec_fails : bool;                (* exec.Command(...).Start() errs *)
  clock : Z;                        (* time.Now(), nanoseconds *)
  trace : list event                (* most recent event last *)
}.

Definition set_oauthConfig (v : OauthConfig) (s : state) : state :=
  mkState v (credentialsConfig s) (graphCredentialStorage s)
    (refreshTokenManagerRunning s) (logger s) (files s) (create_fails s)
    (write_fails s) (close_fails s) (exec_fails s) (clock s) (trace s).

Definition set_credentialsConfig (v : CredentialsConfig) (s : state) : state :=
  mkState (oauthConfig s) v (graphCredentialStorage s)
    (refreshTokenManagerRunning s) (logger s) (files s) (create_fails s)
    (write_fails s) (close_fails s) (exec_fails s) (clock s) (trace s).

Definition set_storage (v : CredentialStorage) (s : state) : state :=
  mkState (oauthConfig s) (credentialsConfig s) v
    (refreshTokenManagerRunning s) (logger s) (files s) (create_fails s)
    (write_fails s) (close_fails s) (exec_fails s) (clock s) (trace s).

Definition set_running (v : bool) (s : state) : state :=
  mkState (oauthConfig s) (credentialsConfig s) (graphCredentialStorage s)
    v (logger s) (files s) (create_fails s)
    (write_fails s) (close_fails s) (exec_fails s) (clock s) (trace s).

Definition set_logger (v : option Logger) (s : state) : state :=
  mkState (oauthConfig s) (credentialsConfig s) (graphCredentialStorage s)
    (refreshTokenManagerRunning s) v (files s) (create_fails s)
    (write_fails s) (close_fails s) (exec_fails s) (clock s) (trace s).

Definition set_files (v : gmap string string) (s : state) : state :=
  mkState (oauthConfig s) (credentialsConfig s) (graphCredentialStorage s)
    (refreshTokenManagerRunning s) (logger s) v (create_fails s)
    (write_fails s) (close_fails s) (exec_fails s) (clock s) (trace s).

Definition set_clock (v : Z) (s : state) : state :=
  mkState (oauthConfig s) (credentialsConfig s) (graphCredentialStorage s)
    (refreshTokenManagerRunning s) (logger s) (files s) (create_fails s)
    (write_fails s) (close_fails s) (exec_fails s) v (trace s).

Definition emit (e : event) (s : state) : state :=
  mkState (oauthConfig s) (credentialsConfig s) (graphCredentialStorage s)
    (refreshTokenManagerRunning s) (logger s) (files s) (create_fails s)
    (write_fails s) (close_fails s) (exec_fails s) (clock s) (trace s ++ [e]).

(** Field updates of the store, one per Go assignment. *)
Definition with_lock (b : bool) (c : CredentialStorage) : CredentialStorage :=
  mkCredentialStorage b (credentials c) (expiresTimestamp c) (authenticated c).
Definition with_credentials (g : GraphAuthentication) (c : CredentialStorage) : CredentialStorage :=
  mkCredentialStorage (lock c) g (expiresTimestamp c) (authenticated c).
Definition with_expiresTimestamp (t : Z) (c : CredentialStorage) : CredentialStorage :=
  mkCredentialStorage (lock c) (credentials c) t (authenticated c).
Definition with_authenticated (b : bool) (c : CredentialStorage) : CredentialStorage :=
  mkCredentialStorage (lock c) (credentials c) (expiresTimestamp c) b.

Definition with_Token (v : string) (g : GraphAuthentication) : GraphAuthentication :=
  mkGraphAuthentication v (Scope g) (ExpiresIn g) (AccessToken g) (RefreshToken g).
Definition with_Scope (v : string) (g : GraphAuthentication) : GraphAuthentication :=
  mkGraphAuthentication (Token g) v (ExpiresIn g) (AccessToken g) (RefreshToken g).
Definition with_ExpiresIn (v : Z) (g : GraphAuthentication) : GraphAuthentication :=
  mkGraphAuthentication (Token g) (Scope g) v (AccessToken g) (RefreshToken g).
Definition with_AccessToken (v : string) (g : GraphAuthentication) : GraphAuthentication :=
  mkGraphAuthentication (Token g) (Scope g) (ExpiresIn g) v (RefreshToken g).
Definition with_RefreshToken (v : string) (g : GraphAuthentication) : GraphAuthentication :=
  mkGraphAuthentication (Token g) (Scope g) (ExpiresIn g) (AccessToken g) v.

(** ** Computations *)

(** How a Go call ends. *)
Inductive outcome (A : Type) :=
| Done (a : A)            (* the function returned *)
| Panic (why : string)    (* run-time panic, e.g. a nil dereference *)
| Exit (code : Z)         (* os.Exit: no deferred call runs *)
| Blocked.                (* Lock on a mutex this very flow holds *)
Arguments Done {A} a.
Arguments Panic {A} why.
Arguments Exit {A} code.
Arguments Blocked {A}.

(** A computation keeps the state it reached, however it ends. *)
Definition M (A : Type) : Type := state -> outcome A * state.

Definition ret {A} (a : A) : M A := fun s => (Done a, s).

Definition bind {A B} (m : M A) (k : A -> M B) : M B :=
  fun s =>
    match m s with
    | (Done a, s') => k a s'
    | (Panic why, s') => (Panic why, s')
    | (Exit c, s') => (Exit c, s')
    | (Blocked, s') => (Blocked, s')
    end.

Declare Scope go_scope.
Delimit Scope go_scope with go.
Notation "x <- m ;; k" := (bind m (fun x => k))
  (at level 100, m at next level, right associativity) : go_scope.
Notation "m ;; k" := (bind m (fun _ => k))
  (at level 100, right associativity) : go_scope.
Local Open Scope go_scope.

Definition get : M state := fun s => (Done s, s).
Definition modify (f : state -> state) : M unit := fun s => (Done tt, f s).
Definition panic {A} (why : string) : M A := fun s => (Panic why, s).
Definition os_Exit {A} (c : Z) : M A := fun s => (Exit c, s).

(** The state a computation leaves and the way it ended. *)
Definition exec {A} (m : M A) (s : state) : state := snd (m s).
Definition result {A} (m : M A) (s : state) : outcome A := fst (m s).

(** [defer cleanup] around a function body: [cleanup] runs when the body
    returns and when it panics, not when the process exits or hangs. *)
Definition defer {A} (cleanup : M unit) (body : M A) : M A :=
  fun s =>
    match body s with
    | (Exit c, s') => (Exit c, s')
    | (Blocked, s') => (Blocked, s')
    | (o, s') =>
        match cleanup s' with
        | (Done _, s'') => (o, s'')
        | (Panic why, s'') => (Panic why, s'')
        | (Exit c, s'') => (Exit c, s'')
        | (Blocked, s'') => (Blocked, s'')
        end
    end.

(** ** Primitives of the runtime and of the libraries *)

(** [sync.Mutex] of a store reached through a pointer.  A nil receiver
    panics at the first field access. *)
Definition Lock (p : ptr) : M unit :=
  fun s =>
    match p with
    | nil_ptr => (Panic "nil pointer dereference", s)
    | addr_graphCredentialStorage =>
        if lock (graphCredentialStorage s) then (Blocked, s)
        else (Done tt, set_storage (with_lock true (graphCredentialStorage s)) s)
    end.

Definition Unlock (p : ptr) : M unit :=
  fun s =>
    match p with
    | nil_ptr => (Panic "nil pointer dereference", s)
    | addr_graphCredentialStorage =>
        if lock (graphCredentialStorage s)
        then (Done tt, set_storage (with_lock false (graphCredentialStorage s)) s)
        else (Panic "sync: unlock of unlocked mutex", s)
    end.

(** Reading the store through a pointer. *)
Definition load_storage (p : ptr) : M CredentialStorage :=
  fun s =>
    match p with
    | nil_ptr => (Panic "nil pointer dereference", s)
    | addr_graphCredentialStorage => (Done (graphCredentialStorage s), s)
    end.

(** Assignments to fields of the package variable [graphCredentialStorage]. *)
Definition assign_storage (f : CredentialStorage -> CredentialStorage) : M unit :=
  modify (fun s => set_storage (f (graphCredentialStorage s)) s).

Definition assign_credentials (f : GraphAuthentication -> GraphAuthentication) : M unit :=
  assign_storage (fun c => with_credentials (f (credentials c)) c).

(** A call on the [logger] variable; a nil interface value panics. *)
Definition log_call (l : level) (msg : string) : M unit :=
  fun s =>
    match logger s with
    | None => (Panic "nil pointer dereference", s)
    | Some impl =>
        match l with
        | FatalLevel =>
            if fatal_exits impl then (Exit 1, emit (EvLog l msg) s)
            else (Done tt, emit (EvLog l msg) s)
        | _ => (Done tt, emit (EvLog l msg) s)
        end
    end.

Definition logger_Debug := log_call DebugLevel.
Definition logger_Info := log_call InfoLevel.
Definition logger_Warn := log_call WarnLevel.
Definition logger_Error := log_call ErrorLevel.
Definition logger_Fatal := log_call FatalLevel.

Definition do_event (e : event) : M unit := modify (emit e).

(** [time.Now()].  The clock of the model moves only in [time_Sleep]:
    the statements of a function, a request and a write to disk take no
    time on it. *)
Definition time_Now : M Z := fun s => (Done (clock s), s).

(** [time.Second], in nanoseconds. *)
Definition time_Second : Z := 1000000000.

(** [time.Sleep(d)]: returns at once when [d <= 0]. *)
Definition time_Sleep (d : Z) : M unit :=
  modify (fun s => emit (EvSleep d) (set_clock (clock s + Z.max d 0) s)).

(** [uint16] subtraction. *)
Definition uint16_sub (a b : Z) : Z := (a - b) mod 65536.

(** [%d]. *)
Definition itoa (n : Z) : string := NilZero.string_of_int (Z.to_int n).

(** [len(s) > 0] and [len(s) == 0] on a Go string. *)
Definition nonempty (s : string) : bool := negb (String.eqb s "").

(** [os.ReadFile]. *)
Definition os_ReadFile (name : string) : M (string * error) :=
  fun s =>
    match files s !! name with
    | Some content => (Done (content, None), s)
    | None => (Done ("", Some "no such file or directory"), s)
    end.

(** [os.Create]: truncates the file. *)
Definition os_Create (name : string) : M error :=
  fun s =>
    if decide (name ∈ create_fails s) then (Done (Some "create"), s)
    else (Done None, set_files (<[name := ""]> (files s)) s).

(** [f.WriteString] on a file just created. *)
Definition f_WriteString (name content : string) : M error :=
  fun s =>
    if decide (name ∈ write_fails s) then (Done (Some "write"), s)
    else (Done None, set_files (<[name := content]> (files s)) s).

(** [f.Close]. *)
Definition f_Close (name : string) : M error :=
  fun s =>
    if decide (name ∈ close_fails s) then (Done (Some "close"), s)
    else (Done None, s).

(** [exec.Command(name, arg).Start()]. *)
Definition exec_Start (name arg : string) : M error :=
  fun s =>
    (Done (if exec_fails s then Some "exec" else None), emit (EvExec name arg) s).

(** Library code the package calls and does not contain: the TOML codec
    of github.com/BurntSushi/toml at type [GraphAuthentication], and
    [filepath.Join].  [toml_Decode data v] is [toml.Decode(data, &v)]: the
    struct as the decoder leaves it, and its error. *)
Class External := {
  toml_Encode : GraphAuthentication -> string * error;
  toml_Decode : string -> GraphAuthentication -> GraphAuthentication * error;
  filepath_Join : string -> string -> string
}.

(** ** The package (auth.go) *)

(** [RedirectURI] and [BaseURL], lines 67-73. *)
Definition RedirectURI (config : OauthConfig) : string :=
  ServerProtocol config ++ "://" ++ ServerHost config ++ ":"
    ++ itoa (ServerPort config) ++ "/callback".

Definition BaseURL (config : OauthConfig) : string :=
  ServerProtocol config ++ "://" ++ ServerHost config ++ ":"
    ++ itoa (ServerPort config).

Definition token_endpoint (config : OauthConfig) : string :=
  "https://login.microsoftonline.com/" ++ TenantID config ++ "/oauth2/v2.0/token".

(** [openLoginPage], lines 196-203. *)
Definition openLoginPage : M unit :=
  s <- get ;;
  if Browser (credentialsConfig s) then
    browserOpenErr <- exec_Start "open" (BaseURL (oauthConfig s) ++ "/home") ;;
    match browserOpenErr with
    | Some _ => logger_Error "Error opening browser to login"
    | None => ret tt
    end
  else ret tt.

(** [GetAccessToken], lines 120-127. *)
Definition GetAccessToken (receiver : ptr) : M (string * bool) :=
  Lock receiver ;;
  c <- load_storage receiver ;;
  let Authenticated := authenticated c in
  let accessToken := AccessToken (credentials c) in
  Unlock receiver ;;
  ret (accessToken, Authenticated).

Section Package.
Context `{External}.

(** [loadExistingCredentials], lines 75-91. *)
Definition loadExistingCredentials : M unit :=
  modify (set_storage zero_CredentialStorage) ;;
  s <- get ;;
  if negb (Persist (credentialsConfig s)) then ret tt
  else
    rd <- os_ReadFile (filepath_Join (StoragePath (credentialsConfig s)) "credentials.toml") ;;
    (match snd rd with
     | Some _ => logger_Error "Error loading existing credentials file"
     | None => ret tt
     end) ;;
    s <- get ;;
    let dec := toml_Decode (fst rd) (credentials (graphCredentialStorage s)) in
    assign_storage (with_credentials (fst dec)) ;;
    match snd dec with
    | Some _ => logger_Error "Error decoding existing credentials file"
    | None => ret tt
    end.

(** [persistCredentials], lines 161-194. *)
Definition persistCredentials (receiver : ptr) (path : string) : M unit :=
  if negb (nonempty path) then ret tt
  else
    Lock receiver ;;
    c <- load_storage receiver ;;
    let enc := toml_Encode (credentials c) in
    Unlock receiver ;;
    match snd enc with
    | Some _ => do_event (EvPrintf "Error encoding current credentials")
    | None =>
        let name := filepath_Join path "credentials.toml" in
        err <- os_Create name ;;
        match err with
        | Some _ => logger_Fatal "Error creating file to save credentials"
        | None =>
            err <- f_WriteString name (fst enc) ;;
            (match err with
             | Some _ => logger_Fatal "Error writing file to save credentials"
             | None => ret tt
             end) ;;
            err <- f_Close name ;;
            match err with
            | Some _ => logger_Fatal "Error closing file to save credentials"
            | None => ret tt
            end
        end
    end.

(** The write both exchanges perform on success (lines 266-272 and
    312-318), assignment by assignment. *)
Definition store_token (graphAuth : GraphAuthentication) : M unit :=
  assign_credentials (with_Token (Token graphAuth)) ;;
  assign_credentials (with_AccessToken (AccessToken graphAuth)) ;;
  assign_credentials (with_ExpiresIn (ExpiresIn graphAuth)) ;;
  now <- time_Now ;;
  assign_storage (with_expiresTimestamp (now + time_Second * ExpiresIn graphAuth)) ;;
  assign_credentials (with_RefreshToken (RefreshToken graphAuth)) ;;
  assign_credentials (with_Scope (Scope graphAuth)) ;;
  assign_storage (with_authenticated true).

(** The reset both failure branches of the refresh perform (lines
    247-249 and 259-261). *)
Definition clear_credentials : M unit :=
  assign_storage (with_credentials zero_GraphAuthentication) ;;
  assign_storage (with_authenticated false) ;;
  openLoginPage.

(** [refreshTokenHandler], lines 224-275; [resp] is what [http.PostForm]
    returns to this call. *)
Definition refreshTokenHandler (resp : post_result) : M error :=
  Lock addr_graphCredentialStorage ;;
  defer (Unlock addr_graphCredentialStorage) (
    s <- get ;;
    do_event (EvPostForm (token_endpoint (oauthConfig s))
      [("client_id", ClientID (oauthConfig s));
       ("scope", "https://graph.microsoft.com/.default offline_access");
       ("refresh_token", RefreshToken (credentials (graphCredentialStorage s)));
       ("redirect_uri", RedirectURI (oauthConfig s));
       ("grant_type", "refresh_token");
       ("client_secret", ClientSecret (oauthConfig s))]) ;;
    match resp with
    | TransportError =>
        logger_Error "Error refresh token" ;;
        ret None
    | Response StatusCode Body =>
        if negb (Z.eqb StatusCode 200) then
          logger_Warn "Received status from server" ;;
          clear_credentials ;;
          ret None
        else
          match Body with
          | Malformed =>
              logger_Error "Error decoding refresh token response" ;;
              clear_credentials ;;
              ret (Some "decode")
          | Json graphAuth =>
              logger_Info "Token refresh succeeded" ;;
              store_token graphAuth ;;
              ret None
          end
    end).

(** How long one turn of the refresh loop sleeps (line 144):
    [time.Duration(ExpiresIn-60) * time.Second], the subtraction in
    [uint16]. *)
Definition timeUntilRefresh (c : CredentialStorage) : Z :=
  uint16_sub (ExpiresIn (credentials c)) 60 * time_Second.

(** How a run of the refresh loop is seen to end. *)
Inductive manager_status :=
| Refused     (* another manager runs: returned at line 132 *)
| Stopped     (* a refresh returned an error: returned at line 156 *)
| Running.    (* still looping when the observation ends *)

(** The [for] loop of [refreshTokenManager], lines 136-158, run against
    the answers the token endpoint gives to the successive refreshes; one
    answer per turn, and the observation ends with the answers. *)
Fixpoint refreshTokenManager_loop (receiver : ptr) (answers : list post_result)
  : M manager_status :=
  match answers with
  | [] => ret Running
  | resp :: later =>
      s <- get ;;
      (if Persist (credentialsConfig s)
       then persistCredentials receiver (StoragePath (credentialsConfig s))
       else ret tt) ;;
      Lock receiver ;;
      c <- load_storage receiver ;;
      let d := timeUntilRefresh c in
      Unlock receiver ;;
      time_Sleep d ;;
      logger_Debug "***Credentials Manager: currently running goroutines***" ;;
      err <- refreshTokenHandler resp ;;
      match err with
      | Some _ =>
          modify (set_running false) ;;
          ret Stopped
      | None => refreshTokenManager_loop receiver later
      end
  end.

(** [refreshTokenManager], lines 129-159. *)
Definition refreshTokenManager (receiver : ptr) (answers : list post_result)
  : M manager_status :=
  s <- get ;;
  if refreshTokenManagerRunning s then ret Refused
  else
    modify (set_running true) ;;
    refreshTokenManager_loop receiver answers.

(** [go graphCredentialStorage.refreshTokenManager()]: the goroutine is
    recorded as started; it runs as [refreshTokenManager]. *)
Definition go_refreshTokenManager : M unit := do_event EvGo_refreshTokenManager.

(** What [http.Redirect] and [fmt.Fprint] write to the client. *)
Definition http_Redirect (target : string) (status : Z) : M unit :=
  do_event (EvRedirect target status).

Definition StatusFound : Z := 302.
Definition StatusSeeOther : Z := 303.
Definition StatusBadRequest : Z := 400.

(** [callbackHandler], lines 277-326; [code] is the query parameter and
    [resp] what [http.PostForm] returns to this call. *)
Definition callbackHandler (code : string) (resp : post_result) : M unit :=
  s <- get ;;
  do_event (EvPostForm (token_endpoint (oauthConfig s))
    [("client_id", ClientID (oauthConfig s));
     ("scope", "https://graph.microsoft.com/.default offline_access");
     ("code", code);
     ("redirect_uri", RedirectURI (oauthConfig s));
     ("grant_type", "authorization_code");
     ("client_secret", ClientSecret (oauthConfig s))]) ;;
  match resp with
  | TransportError =>
      logger_Error "Error acquiring token" ;;
      http_Redirect "/error" StatusBadRequest
  | Response _ Body =>
      match Body with
      | Malformed =>
          logger_Error "Error decoding graph token response" ;;
          http_Redirect "/error" StatusBadRequest
      | Json graphAuth =>
          logger_Info "Token received" ;;
          Lock addr_graphCredentialStorage ;;
          store_token graphAuth ;;
          Unlock addr_graphCredentialStorage ;;
          http_Redirect "/success" StatusSeeOther ;;
          go_refreshTokenManager
      end
  end.

(** The other handlers, lines 205-222. *)
Definition homeHandler : M unit := do_event (EvFprint "<a href='/login'>Login</a>").

Definition successHandler : M unit :=
  do_event (EvFprint "<p>Login success. You can not close this tab.</p>").

Definition errorHandler : M unit :=
  do_event (EvFprint
    "<p>Error on login to Microsoft Graph API.</p><br/><p>Try again at <a href='/home'>Home</a></p>").

Definition loginHandler : M unit :=
  s <- get ;;
  http_Redirect
    ("https://login.microsoftonline.com/" ++ TenantID (oauthConfig s)
       ++ "/oauth2/authorize?client_id=" ++ ClientID (oauthConfig s)
       ++ "&response_type=code&redirect_uri=" ++ RedirectURI (oauthConfig s)
       ++ "&scope=Calendars.Read")
    StatusFound.

(** [Run], lines 93-118; [resp] answers the refresh the start-up makes
    when the loaded credential has a refresh token.  [returned] holds the
    value of the early [return nil] of line 111 when it is taken; the
    function otherwise falls through to lines 115-117. *)
Definition Run (oauth : OauthConfig) (appConfig : CredentialsConfig)
    (log : option Logger) (resp : post_result) : M ptr :=
  modify (set_oauthConfig oauth) ;;
  modify (set_credentialsConfig appConfig) ;;
  loadExistingCredentials ;;
  modify (set_logger log) ;;
  do_event (EvHandleFunc "/home") ;;
  do_event (EvHandleFunc "/login") ;;
  do_event (EvHandleFunc "/success") ;;
  do_event (EvHandleFunc "/error") ;;
  do_event (EvHandleFunc "/callback") ;;
  s <- get ;;
  returned <-
    (if nonempty (RefreshToken (credentials (graphCredentialStorage s))) then
       err <- refreshTokenHandler resp ;;
       match err with
       | None =>
           go_refreshTokenManager ;;
           ret (Some nil_ptr)
       | Some _ => ret None
       end
     else ret None) ;;
  match returned with
  | Some p => ret p
  | None =>
      openLoginPage ;;
      ret addr_graphCredentialStorage
  end.

End Package.

(** ** The caller (main.go) *)

(** [fetchEventsFromOutlook], main.go lines 162-169, up to the test of
    [isAuthenticated]; [graphCredentials] is the variable holding what
    [Run] returned.  The result tells whether the function went on to
    query the calendar, and with which token. *)
Definition fetchEventsFromOutlook (graphCredentials : ptr) : M (option string) :=
  got <- GetAccessToken graphCredentials ;;
  let graphAccessToken := fst got in
  let isAuthenticated := snd got in
  if negb isAuthenticated then
    do_event (EvLog WarnLevel "Application is not yet authenticated") ;;
    ret None
  else ret (Some graphAccessToken).

(** *** The event list and its two readers (main.go, lines 29-54,
    134-147 and 220-261) *)

Record GraphApiLocation := mkGraphApiLocation {
  Name : string;
  LocationType : string;
  LocationId : string;
  IdType : string
}.

Record GraphApiDateTime := mkGraphApiDateTime {
  DateTime : string;
  Timezone : string
}.

Record OutlookEvent := mkOutlookEvent {
  Id : string;
  Subject : string;
  Location : GraphApiLocation;
  Start : GraphApiDateTime;
  End_ : GraphApiDateTime
}.

(** [OutlookEventList]; [EventsLock] is [true] while its mutex is held,
    [LastUpdate] is a point on the clock. *)
Record OutlookEventList := mkOutlookEventList {
  EventsLock : bool;
  LastUpdate : Z;
  Context_ : string;
  Value : list OutlookEvent
}.

(** The parts of package [time] the readers call.  A [time.Time] is kept
    as its instant on the clock, in nanoseconds; [time_Parse layout v] is
    [time.Parse(layout, v)], the instant it returns and its error;
    the other functions read an instant in the zone [time.Local], whose
    name is [local_name]; [time_Format t layout] is
    [t.In(time.Local).Format(layout)]. *)
Class TimeLib := {
  time_Parse : string -> string -> Z * error;
  local_Hour : Z -> Z;
  local_Minute : Z -> Z;
  local_Day : Z -> Z;
  local_Month : Z -> Z;
  local_name : string;
  time_Format : Z -> string -> string
}.

Section Main.
Context `{External} `{TimeLib}.

(** [time.Parse] with the layout both readers use, its error dropped. *)
Definition parse_DateTime (d : GraphApiDateTime) : Z :=
  fst (time_Parse "2006-01-02T15:04:05" (DateTime d)).

(** The line [nextEventHandler] prints for an event (line 140):
    ["%s - %d:%d (%d/%d) %s"]. *)
Definition handler_line (nextEvent : OutlookEvent) : string :=
  let t := parse_DateTime (Start nextEvent) in
  Subject nextEvent ++ " - " ++ itoa (local_Hour t) ++ ":" ++ itoa (local_Minute t)
    ++ " (" ++ itoa (local_Day t) ++ "/" ++ itoa (local_Month t) ++ ") " ++ local_name.

(** The [for] loop of [nextEventHandler], lines 136-143. *)
Fixpoint nextEventHandler_loop (events : list OutlookEvent) : M unit :=
  match events with
  | [] => ret tt
  | nextEvent :: rest =>
      let nextEventDateTime := parse_DateTime (Start nextEvent) in
      now <- time_Now ;;
      if Z.ltb now nextEventDateTime then
        do_event (EvFprint (handler_line nextEvent))
      else nextEventHandler_loop rest
  end.

(** [nextEventHandler], lines 134-147, reading the variable
    [graphEvents]. *)
Definition nextEventHandler (graphEvents : OutlookEventList) : M unit :=
  if (0 <? length (Value graphEvents))%nat then
    nextEventHandler_loop (Value graphEvents)
  else do_event (EvFprint "No events").

(** The line [persistEvent] writes for an event (line 238):
    ["%s - %s - %s"]. *)
Definition file_line (nextEvent : OutlookEvent) : string :=
  Subject nextEvent ++ " - "
    ++ time_Format (parse_DateTime (Start nextEvent)) "15:04 (02/Jan)" ++ " - "
    ++ time_Format (parse_DateTime (End_ nextEvent)) "15:04 (02/Jan)".

(** The [for] loop of [persistEvent], lines 231-241: the new value of
    [nextEventString]. *)
Fixpoint persistEvent_loop (events : list OutlookEvent) (nextEventString : string)
  : M string :=
  match events with
  | [] => ret nextEventString
  | nextEvent :: rest =>
      let nextEventDateTime := parse_DateTime (Start nextEvent) in
      now <- time_Now ;;
      if Z.ltb now nextEventDateTime then ret (file_line nextEvent)
      else persistEvent_loop rest nextEventString
  end.

(** [persistEvent], lines 220-261.  [log] is the caller's logrus logger,
    set before the function can run; its [Error] writes a record and
    returns. *)
Definition persistEvent (outlookEventList : OutlookEventList) (path : string) : M unit :=
  if negb (nonempty path) then ret tt
  else
    (fun s => if EventsLock outlookEventList then (Blocked, s) else (Done tt, s)) ;;
    nextEventString <-
      (if (0 <? length (Value outlookEventList))%nat
       then persistEvent_loop (Value outlookEventList) "No events"
       else ret "No events") ;;
    let name := filepath_Join path "next_event" in
    err <- os_Create name ;;
    match err with
    | Some _ => do_event (EvLog ErrorLevel "Error creating next event file")
    | None =>
        err <- f_WriteString name nextEventString ;;
        (match err with
         | Some _ => do_event (EvLog ErrorLevel "Error writing next event file")
         | None => ret tt
         end) ;;
        err <- f_Close name ;;
        match err with
        | Some _ => do_event (EvLog ErrorLevel "Error closing next event file")
        | None => ret tt
        end
    end.

End Main.

(** ** Vocabulary of the properties *)

(** The three ways an exchange fails: transport failure, a status other
    than 200, a body that does not decode. *)
Definition failed_exchange (resp : post_result) : Prop :=
  match resp with
  | TransportError => True
  | Response StatusCode Body =>
      StatusCode <> 200 \/ Body = Malformed
  end.

(** A refresh the provider answers with 200 and a decodable body. *)
Definition refresh_succeeds (resp : post_result) : Prop :=
  exists graphAuth, resp = Response 200 (Json graphAuth).

(** The store reports no session: what a reader sees after [clear()]. *)
Definition store_cleared (c : CredentialStorage) : Prop :=
  authenticated c = false /\ AccessToken (credentials c) = "".

(** A state in which the package can take a call: the logger is set (as
    [Run] leaves it) and no flow holds the store's mutex. *)
Definition ready (s : state) : Prop :=
  (exists impl, logger s = Some impl) /\ lock (graphCredentialStorage s) = false.

(** The file system takes every write. *)
Definition disk_ok (s : state) : Prop :=
  create_fails s = ∅ /\ write_fails s = ∅ /\ close_fails s = ∅.

(** Refresh requests sent so far. *)
Definition is_refresh_attempt (e : event) : bool :=
  match e with
  | EvPostForm _ data =>
      existsb (fun kv => String.eqb (fst kv) "grant_type" && String.eqb (snd kv) "refresh_token") data
  | _ => false
  end.

Definition refresh_attempts (s : state) : nat :=
  length (List.filter is_refresh_attempt (trace s)).

Definition is_spawn (e : event) : bool :=
  match e with EvGo_refreshTokenManager => true | _ => false end.

Definition is_browser_launch (e : event) : bool :=
  match e with EvExec _ _ => true | _ => false end.

Definition redirects (s : state) : list (string * Z) :=
  omap (fun e => match e with EvRedirect t c => Some (t, c) | _ => None end) (trace s).

(** The refresh loop has been started. *)
Definition supervisor_started (s : state) : Prop :=
  existsb is_spawn (trace s) = true.

(** The interactive login was started: the browser was sent to [/home]. *)
Definition login_page_opened (s : state) : Prop :=
  existsb is_browser_launch (trace s) = true.

(** The value a form carries under a key. *)
Definition form_value (key : string) (data : list (string * string)) : option string :=
  snd <$> find (fun kv => String.eqb (fst kv) key) data.

(** The refresh tokens sent to the token endpoint so far, oldest first. *)
Definition posted_refresh_tokens (s : state) : list string :=
  omap (fun e => match e with
                 | EvPostForm _ data =>
                     if is_refresh_attempt e then form_value "refresh_token" data else None
                 | _ => None
                 end) (trace s).

(** The authorization codes sent to the token endpoint so far. *)
Definition posted_codes (s : state) : list string :=
  omap (fun e => match e with
                 | EvPostForm _ data =>
                     if is_refresh_attempt e then None else form_value "code" data
                 | _ => None
                 end) (trace s).

(** What the refresh loop did so far, in order: the sleeps it asked
    for, by their duration, and the refreshes sent, by the refresh token
    they carried. *)
Definition timeline (s : state) : list (Z + string) :=
  omap (fun e => match e with
                 | EvSleep d => Some (inl d)
                 | EvPostForm _ data =>
                     if is_refresh_attempt e
                     then inr <$> form_value "refresh_token" data
                     else None
                 | _ => None
                 end) (trace s).

(** The [redirect_uri] values sent to the token endpoint so far. *)
Definition posted_redirect_uris (s : state) : list string :=
  omap (fun e => match e with
                 | EvPostForm _ data => form_value "redirect_uri" data
                 | _ => None
                 end) (trace s).

(** How often the browser was sent to the login page, and how often the
    refresh loop was started. *)
Definition browser_launches (s : state) : nat :=
  length (List.filter is_browser_launch (trace s)).

Definition supervisor_starts (s : state) : nat :=
  length (List.filter is_spawn (trace s)).

(** What the handlers wrote to the client, oldest first. *)
Definition printed (s : state) : list string :=
  omap (fun e => match e with EvFprint html => Some html | _ => None end) (trace s).

(** An event starts after the instant [now]. *)
Definition upcoming `{TimeLib} (now : Z) (e : OutlookEvent) : Prop :=
  now < parse_DateTime (Start e).

Section Reachability.
Context `{External}.

(** The operations that touch the store, and the passing of time. *)
Inductive operation :=
| OpLoad
| OpCallback (code : string) (resp : post_result)
| OpRefresh (resp : post_result)
| OpPersist (path : string)
| OpRead
| OpSleep (d : Z).

Definition perform (op : operation) : M unit :=
  match op with
  | OpLoad => loadExistingCredentials
  | OpCallback code resp => callbackHandler code resp
  | OpRefresh resp => refreshTokenHandler resp ;; ret tt
  | OpPersist path => persistCredentials addr_graphCredentialStorage path
  | OpRead => GetAccessToken addr_graphCredentialStorage ;; ret tt
  | OpSleep d => time_Sleep d
  end.

(** The token an exchange hands to the store when it runs to its end:
    the callback keeps any decodable body, the refresh one that comes
    with status 200. *)
Definition granted (op : operation) : option GraphAuthentication :=
  match op with
  | OpCallback _ (Response _ (Json graphAuth)) => Some graphAuth
  | OpRefresh (Response StatusCode (Json graphAuth)) =>
      if Z.eqb StatusCode 200 then Some graphAuth else None
  | _ => None
  end.

(** A run of operations, together with the last exchange that stored a
    token: the time it was made at and the token the provider sent. *)
Definition history := option (Z * GraphAuthentication).

Definition step (op : operation) (sh : state * history) : state * history :=
  let (s, h) := sh in
  match perform op s, granted op with
  | (Done _, s'), Some graphAuth => (s', Some (clock s, graphAuth))
  | (_, s'), _ => (s', h)
  end.

Definition run_ops (ops : list operation) (s : state) : state * history :=
  fold_left (fun sh op => step op sh) ops (s, None).

End Reachability.

(** ** Summaries of the exchanges *)

(** The store with its credential reset and the flag down. *)
Definition cleared (c : CredentialStorage) : CredentialStorage :=
  with_authenticated false (with_credentials zero_GraphAuthentication c).

(** The store holding the token received at time [now]. *)
Definition written (graphAuth : GraphAuthentication) (now : Z) (c : CredentialStorage)
  : CredentialStorage :=
  {| lock := lock c;
     credentials := graphAuth;
     expiresTimestamp := now + time_Second * ExpiresIn graphAuth;
     authenticated := true |}.

(** The store after a refresh, as a function of the answer, the time of
    the call and the store before. *)
Definition refreshed (resp : post_result) (now : Z) (c : CredentialStorage)
  : CredentialStorage :=
  match resp with
  | TransportError => c
  | Response StatusCode Body =>
      if negb (Z.eqb StatusCode 200) then cleared c
      else match Body with
           | Malformed => cleared c
           | Json graphAuth => written graphAuth now c
           end
  end.

(** The error a refresh returns, as a function of the answer. *)
Definition refresh_error (resp : post_result) : error :=
  match resp with
  | Response StatusCode Malformed =>
      if Z.eqb StatusCode 200 then Some "decode" else None
  | _ => None
  end.

(** Everything but the store and the trace is as before. *)
Definition same_world (s s' : state) : Prop :=
  oauthConfig s' = oauthConfig s
  /\ credentialsConfig s' = credentialsConfig s
  /\ refreshTokenManagerRunning s' = refreshTokenManagerRunning s
  /\ logger s' = logger s
  /\ files s' = files s
  /\ create_fails s' = create_fails s
  /\ write_fails s' = write_fails s
  /\ close_fails s' = close_fails s
  /\ exec_fails s' = exec_fails s
  /\ clock s' = clock s.

(** The store after a callback, and the redirect the client gets, as
    functions of the answer to the code exchange. *)
Definition called_back (resp : post_result) (now : Z) (c : CredentialStorage)
  : CredentialStorage :=
  match resp with
  | Response _ (Json graphAuth) => written graphAuth now c
  | _ => c
  end.

Definition callback_redirect (resp : post_result) : string * Z :=
  match resp with
  | Response _ (Json _) => ("/success", StatusSeeOther)
  | _ => ("/error", StatusBadRequest)
  end.

(** What a refresh loop needs to keep turning: the package can take a
    call and the disk takes every write. *)
Definition steady (s : state) : Prop := ready s /\ disk_ok s.

(** Everything but the files and the trace is as before, and no refresh
    was sent. *)
Definition persisted_frame (s s' : state) : Prop :=
  oauthConfig s' = oauthConfig s
  /\ credentialsConfig s' = credentialsConfig s
  /\ graphCredentialStorage s' = graphCredentialStorage s
  /\ refreshTokenManagerRunning s' = refreshTokenManagerRunning s
  /\ logger s' = logger s
  /\ create_fails s' = create_fails s
  /\ write_fails s' = write_fails s
  /\ close_fails s' = close_fails s
  /\ exec_fails s' = exec_fails s
  /\ clock s' = clock s
  /\ refresh_attempts s' = refresh_attempts s.

(** The answers after which a refresh returns no error by design: a
    transport failure, and a token. *)
Definition keeps_looping (resp : post_result) : Prop :=
  resp = TransportError \/ refresh_succeeds resp.

(** ** Fixtures: a concrete library and concrete states *)

Definition dquote : string := String (Ascii.ascii_of_nat 34) EmptyString.
Definition newline : string := String (Ascii.ascii_of_nat 10) EmptyString.

(** The document the TOML encoder writes for a credential whose strings
    need no escaping: the struct has no [toml] tags, so the keys are the
    Go field names. *)
Definition toml_document (g : GraphAuthentication) : string :=
  "Token = " ++ dquote ++ Token g ++ dquote ++ newline
  ++ "Scope = " ++ dquote ++ Scope g ++ dquote ++ newline
  ++ "ExpiresIn = " ++ itoa (ExpiresIn g) ++ newline
  ++ "AccessToken = " ++ dquote ++ AccessToken g ++ dquote ++ newline
  ++ "RefreshToken = " ++ dquote ++ RefreshToken g ++ dquote ++ newline.

(** A library that knows the documents of the credentials in [known]:
    it decodes those, takes the empty document as one without keys, and
    rejects everything else.  Paths are joined with a slash. *)
Definition fixture_External (known : list GraphAuthentication) : External := {|
  toml_Encode g := (toml_document g, None);
  toml_Decode data v :=
    if String.eqb data "" then (v, None)
    else match find (fun g => String.eqb (toml_document g) data) known with
         | Some g => (g, None)
         | None => (v, Some "toml: invalid document")
         end;
  filepath_Join dir name := dir ++ "/" ++ name
|}.

Definition fixture_oauth : OauthConfig :=
  {| ClientID := "client"; ClientSecret := "secret"; TenantID := "tenant";
     ServerProtocol := "http"; ServerHost := "localhost"; ServerPort := 8000 |}.

Definition fixture_config : CredentialsConfig :=
  {| Browser := true; Persist := true; StoragePath := "/cache" |}.

(** The credential of a previous session, as persisted. *)
Definition persisted_rt123 : GraphAuthentication :=
  {| Token := "Bearer"; Scope := "Calendars.Read"; ExpiresIn := 3600;
     AccessToken := "old"; RefreshToken := "rt-123" |}.

(** A token response. *)
Definition token_tok1 : GraphAuthentication :=
  {| Token := "Bearer"; Scope := "Calendars.Read"; ExpiresIn := 3600;
     AccessToken := "tok1"; RefreshToken := "rt-456" |}.

(** A token response whose lifetime is shorter than the safety margin. *)
Definition token_short : GraphAuthentication :=
  {| Token := "Bearer"; Scope := "Calendars.Read"; ExpiresIn := 30;
     AccessToken := "tok2"; RefreshToken := "rt-789" |}.

(** A 200 answer whose JSON document has no [access_token] key. *)
Definition token_without_access : GraphAuthentication :=
  {| Token := "Bearer"; Scope := "Calendars.Read"; ExpiresIn := 3600;
     AccessToken := ""; RefreshToken := "rt-456" |}.

#[local] Instance fixture_lib : External :=
  fixture_External [persisted_rt123; token_tok1; token_short].

(** A fresh process: package variables at their zero values, an empty
    disk that takes every write, the clock at [t0]. *)
Definition boot (t0 : Z) : state :=
  {| oauthConfig := mkOauthConfig "" "" "" "" "" 0;
     credentialsConfig := mkCredentialsConfig false false "";
     graphCredentialStorage := zero_CredentialStorage;
     refreshTokenManagerRunning := false;
     logger := None;
     files := ∅; create_fails := ∅; write_fails := ∅; close_fails := ∅;
     exec_fails := false; clock := t0; trace := [] |}.

(** A fresh process that finds the credential of a previous session. *)
Definition boot_with_file (t0 : Z) : state :=
  set_files {[ "/cache/credentials.toml" := toml_document persisted_rt123 ]} (boot t0).

(** A process after [Run], configured and not logged in. *)
Definition configured (t0 : Z) : state :=
  set_logger (Some logrus)
    (set_credentialsConfig fixture_config (set_oauthConfig fixture_oauth (boot t0))).

(** A process holding a live session. *)
Definition in_session (t0 : Z) : state :=
  set_storage
    {| lock := false; credentials := token_tok1;
       expiresTimestamp := t0 + 3600 * time_Second; authenticated := true |}
    (configured t0).

(** A clock library that knows two instants: it parses their texts,
    reads them in a zone one hour east of UTC, and formats them by a
    table.  Instants are nanoseconds from the start of the year 2030. *)
Definition fixture_TimeLib : TimeLib := {|
  time_Parse layout v :=
    if String.eqb v "2030-01-01T09:00:00" then (9 * 3600 * time_Second, None)
    else if String.eqb v "2030-01-01T10:30:00" then ((10 * 3600 + 1800) * time_Second, None)
    else (0, Some "parsing time");
  local_Hour t := (t / (3600 * time_Second) + 1) mod 24;
  local_Minute t := (t / (60 * time_Second)) mod 60;
  local_Day t := 1;
  local_Month t := 1;
  local_name := "Local";
  time_Format t layout :=
    if Z.eqb t (9 * 3600 * time_Second) then "10:00 (01/Jan)"
    else if Z.eqb t ((10 * 3600 + 1800) * time_Second) then "11:30 (01/Jan)"
    else "00:00 (01/Jan)"
|}.

#[local] Instance fixture_time : TimeLib := fixture_TimeLib.

Definition fixture_event (subject start_ end__ : string) : OutlookEvent :=
  {| Id := subject; Subject := subject;
     Location := mkGraphApiLocation "" "" "" "";
     Start := mkGraphApiDateTime start_ "UTC";
     End_ := mkGraphApiDateTime end__ "UTC" |}.

(** A stand-up at 09:00 and a review at 10:30, in the order the fetch
    leaves them. *)
Definition fixture_events : OutlookEventList :=
  {| EventsLock := false; LastUpdate := 0; Context_ := "";
     Value := [fixture_event "Stand-up" "2030-01-01T09:00:00" "2030-01-01T10:30:00";
               fixture_event "Review" "2030-01-01T10:30:00" "2030-01-01T10:30:00"] |}.

(** * Properties *)

(** ** The refresh exchange *)

(** Runs a computation as far as its branches are decided: unfolds the
    package and the runtime primitives, and leaves library operations
    (maps, sets, strings, lists, integers) folded. *)
Ltac go_compute :=
  lazy beta iota zeta delta
    [bind ret get modify panic os_Exit exec result defer
     Lock Unlock load_storage assign_storage assign_credentials
     log_call logger_Debug logger_Info logger_Warn logger_Error logger_Fatal
     do_event time_Now time_Sleep
     os_ReadFile os_Create f_WriteString f_Close exec_Start
     openLoginPage GetAccessToken loadExistingCredentials persistCredentials
     store_token clear_credentials refreshTokenHandler
     go_refreshTokenManager http_Redirect callbackHandler
     fetchEventsFromOutlook Run
     set_oauthConfig set_credentialsConfig set_storage set_running
     set_logger set_files set_clock emit
     with_lock with_credentials with_expiresTimestamp with_authenticated
     with_Token with_Scope with_ExpiresIn with_AccessToken with_RefreshToken
     oauthConfig credentialsConfig graphCredentialStorage
     refreshTokenManagerRunning logger files create_fails write_fails
     close_fails exec_fails clock trace
     lock credentials expiresTimestamp authenticated
     Token Scope ExpiresIn AccessToken RefreshToken
     Browser Persist StoragePath fatal_exits
     cleared written refreshed called_back callback_redirect refresh_error
     zero_CredentialStorage
     StatusFound StatusSeeOther StatusBadRequest
     fst snd negb].

(** The same, keeping the calls to the package's functions folded. *)
Ltac go_step :=
  lazy beta iota zeta delta
    [bind ret get modify panic os_Exit exec result defer
     Lock Unlock load_storage assign_storage assign_credentials
     log_call logger_Debug logger_Info logger_Warn logger_Error logger_Fatal
     do_event time_Now time_Sleep go_refreshTokenManager http_Redirect
     set_oauthConfig set_credentialsConfig set_storage set_running
     set_logger set_files set_clock emit
     with_lock with_credentials with_expiresTimestamp with_authenticated
     oauthConfig credentialsConfig graphCredentialStorage
     refreshTokenManagerRunning logger files create_fails write_fails
     close_fails exec_fails clock trace
     lock credentials expiresTimestamp authenticated
     Browser Persist StoragePath fatal_exits
     fst snd negb].

(** Splits on whatever a stuck computation waits for. *)
Ltac break_match :=
  match goal with
  | |- context [match ?x with _ => _ end] =>
      lazymatch x with
      | context [match _ with _ => _ end] => fail
      | _ => destruct x eqn:?
      end
  end.

Lemma refresh_attempts_emit (e : event) (s : state) :
  refresh_attempts (emit e s)
  = (refresh_attempts s + if is_refresh_attempt e then 1 else 0)%nat.
Proof.
  unfold refresh_attempts, emit; cbn [trace].
  rewrite List.filter_app, length_app. cbn.
  destruct (is_refresh_attempt e); reflexivity.
Qed.

Section RefreshProperties.
Context `{External}.

Lemma refreshTokenHandler_ready (resp : post_result) (s : state) :
  ready s ->
  exists s',
    refreshTokenHandler resp s = (Done (refresh_error resp), s')
    /\ graphCredentialStorage s'
       = refreshed resp (clock s) (graphCredentialStorage s)
    /\ same_world s s'
    /\ refresh_attempts s' = S (refresh_attempts s).
Proof.
  intros [[impl Hlog] Hlock].
  destruct s as [oa [br pe sp] [lk cr ex au] rn lg fl cf wf clf ef ck tr].
  cbn in Hlog, Hlock. subst lk lg.
  unfold refreshTokenHandler, refresh_error, refreshed.
  destruct resp as [|st [|[tk sc ei at_ rt]]]; [| destruct (Z.eqb st 200) eqn:Est ..].
  all: destruct br; destruct ef.
  all: eexists; split; [go_compute; reflexivity |].
  all: split; [reflexivity |].
  all: split; [repeat split |].
  all: unfold refresh_attempts; cbn [trace].
  all: rewrite ?List.filter_app, ?length_app; cbn; lia.
Qed.

Lemma GetAccessToken_ready (s : state) :
  lock (graphCredentialStorage s) = false ->
  GetAccessToken addr_graphCredentialStorage s
  = (Done (AccessToken (credentials (graphCredentialStorage s)),
           authenticated (graphCredentialStorage s)), s).
Proof.
  destruct s as [oa cc [lk cr ex au] rn lg fl cf wf clf ef ck tr].
  cbn. intros ->. reflexivity.
Qed.

(** C1, as amended.  A refresh that the provider answers with a status
    other than 200, or with a 200 whose body does not decode, leaves the
    store cleared whatever it held: a reader gets the empty token and
    [authenticated = false].  A refresh that fails in transport leaves the
    store exactly as it was. *)
Theorem refresh_failure_effect (s : state) (resp : post_result) :
  ready s ->
  failed_exchange resp ->
  let s' := exec (refreshTokenHandler resp) s in
  (resp <> TransportError ->
     store_cleared (graphCredentialStorage s')
     /\ credentials (graphCredentialStorage s') = zero_GraphAuthentication
     /\ result (GetAccessToken addr_graphCredentialStorage) s' = Done ("", false))
  /\ (resp = TransportError ->
        graphCredentialStorage s' = graphCredentialStorage s).
Proof.
  intros Hready Hfail.
  destruct (refreshTokenHandler_ready resp s Hready) as (s1 & Heq & Hst & Hw & _).
  unfold exec, result. rewrite Heq. cbn [snd fst].
  assert (Hlock : lock (graphCredentialStorage s) = false) by apply Hready.
  split.
  - intros Hne.
    assert (Hc : graphCredentialStorage s1 = cleared (graphCredentialStorage s)).
    { rewrite Hst. destruct resp as [|st b]; [congruence |].
      cbn in Hfail |- *. destruct (Z.eqb_spec st 200) as [->|]; cbn.
      - destruct Hfail as [Hst' | ->]; [congruence | reflexivity].
      - reflexivity. }
    assert (Hl1 : lock (graphCredentialStorage s1) = false).
    { rewrite Hc. exact Hlock. }
    rewrite (GetAccessToken_ready s1 Hl1), Hc. cbn.
    repeat split.
  - intros ->. exact Hst.
Qed.

End RefreshProperties.

(** A live session and a refresh answered with 400: the store is cleared. *)
Lemma refresh_failure_effect_witness :
  store_cleared
    (graphCredentialStorage
       (exec (refreshTokenHandler (Response 400 Malformed)) (in_session 0))).
Proof.
  refine (proj1 (proj1 (refresh_failure_effect (in_session 0) (Response 400 Malformed) _ _) _)).
  - split; [exists logrus; reflexivity | reflexivity].
  - left. discriminate.
  - discriminate.
Defined.

(** C1 as stated fails on a transport failure: the exchange failed, and
    the store still reports the session it held. *)
Lemma transport_failure_keeps_session :
  failed_exchange TransportError
  /\ ready (in_session 0)
  /\ result (GetAccessToken addr_graphCredentialStorage)
       (exec (refreshTokenHandler TransportError) (in_session 0))
     = Done ("tok1", true)
  /\ ~ store_cleared
       (graphCredentialStorage (exec (refreshTokenHandler TransportError) (in_session 0))).
Proof.
  split; [exact I |].
  split; [split; [exists logrus; reflexivity | reflexivity] |].
  split; [vm_compute; reflexivity |].
  intros [Hauth _]. vm_compute in Hauth. discriminate.
Qed.

(** ** The authorization-code exchange and reads of the store *)

Section CallbackProperties.
Context `{External}.

Lemma callbackHandler_ready (code : string) (resp : post_result) (s : state) :
  ready s ->
  exists s',
    callbackHandler code resp s = (Done tt, s')
    /\ graphCredentialStorage s'
       = called_back resp (clock s) (graphCredentialStorage s)
    /\ same_world s s'
    /\ redirects s' = (redirects s ++ [callback_redirect resp])%list
    /\ refresh_attempts s' = refresh_attempts s.
Proof.
  intros [[impl Hlog] Hlock].
  destruct s as [oa [br pe sp] [lk cr ex au] rn lg fl cf wf clf ef ck tr].
  cbn in Hlog, Hlock. subst lk lg.
  unfold callbackHandler, called_back, callback_redirect.
  destruct resp as [|st [|[tk sc ei at_ rt]]].
  all: eexists; split; [go_compute; reflexivity |].
  all: split; [reflexivity |].
  all: split; [repeat split |].
  all: split; [unfold redirects; cbn [trace]; rewrite ?omap_app; cbn;
               rewrite ?app_nil_r; reflexivity |].
  all: unfold refresh_attempts; cbn [trace].
  all: rewrite ?List.filter_app, ?length_app; cbn; lia.
Qed.

(** C7.  After an exchange that stores a token (a refresh answered with
    200 and a decodable body, or a callback whose code exchange decodes),
    the next read returns that token with [authenticated = true]; the read
    returns, and leaves the state as it found it. *)
Theorem read_after_write (s : state) (graphAuth : GraphAuthentication) :
  ready s ->
  (forall s', s' = exec (refreshTokenHandler (Response 200 (Json graphAuth))) s ->
     GetAccessToken addr_graphCredentialStorage s'
     = (Done (AccessToken graphAuth, true), s'))
  /\ (forall code StatusCode s',
        s' = exec (callbackHandler code (Response StatusCode (Json graphAuth))) s ->
        GetAccessToken addr_graphCredentialStorage s'
        = (Done (AccessToken graphAuth, true), s')).
Proof.
  intros Hready.
  assert (Hlock : lock (graphCredentialStorage s) = false) by apply Hready.
  split.
  - intros s' ->.
    destruct (refreshTokenHandler_ready (Response 200 (Json graphAuth)) s Hready)
      as (s1 & Heq & Hst & _).
    unfold exec. rewrite Heq. cbn [snd]. cbn in Hst.
    rewrite GetAccessToken_ready; rewrite Hst; [reflexivity | exact Hlock].
  - intros code st s' ->.
    destruct (callbackHandler_ready code (Response st (Json graphAuth)) s Hready)
      as (s1 & Heq & Hst & _).
    unfold exec. rewrite Heq. cbn [snd]. cbn in Hst.
    rewrite GetAccessToken_ready; rewrite Hst; [reflexivity | exact Hlock].
Qed.

(** C4, at the failing input.  A callback with [code=bad] that the
    provider answers with status 400 and a JSON error document (which
    decodes to the zero credential): the client is sent to [/success] with
    303, the store reports [authenticated = true] with an empty token, and
    the refresh loop is started. *)
Theorem callback_ignores_status :
  let s' := exec (callbackHandler "bad" (Response 400 (Json zero_GraphAuthentication)))
                 (configured 0) in
  redirects s' = [("/success", 303)]
  /\ result (GetAccessToken addr_graphCredentialStorage) s' = Done ("", true)
  /\ supervisor_started s'.
Proof. vm_compute. repeat split. Qed.

(** X16.  A code exchange that fails in transport, or whose body does
    not decode, sends the client to [/error] with status 400 and leaves
    the store as it was. *)
Lemma callback_error_redirect (code : string) (resp : post_result) (s : state) :
  ready s ->
  resp = TransportError \/ (exists StatusCode, resp = Response StatusCode Malformed) ->
  let s' := exec (callbackHandler code resp) s in
  redirects s' = (redirects s ++ [("/error", 400)])%list
  /\ graphCredentialStorage s' = graphCredentialStorage s.
Proof.
  intros Hready Hresp.
  destruct (callbackHandler_ready code resp s Hready) as (s1 & Heq & Hst & _ & Hred & _).
  unfold exec. rewrite Heq. cbn [snd].
  destruct Hresp as [-> | [st ->]]; cbn in Hst, Hred; auto.
Qed.

End CallbackProperties.

(** A callback with [code=abc] answered with [tok1]: the read gives
    [("tok1", true)]. *)
Lemma read_after_write_witness :
  result (GetAccessToken addr_graphCredentialStorage)
    (exec (callbackHandler "abc" (Response 200 (Json token_tok1))) (configured 0))
  = Done ("tok1", true).
Proof.
  unfold result.
  rewrite (proj2 (read_after_write (configured 0) token_tok1
                    (conj (ex_intro _ logrus eq_refl) eq_refl))
             "abc" 200 _ eq_refl).
  reflexivity.
Defined.


(** ** Start-up, persistence and the sleep of the refresh loop *)

Section StartupProperties.
Context `{External}.

Lemma loadExistingCredentials_store (s : state) :
  let s' := exec loadExistingCredentials s in
  authenticated (graphCredentialStorage s') = false
  /\ lock (graphCredentialStorage s') = false
  /\ result (GetAccessToken addr_graphCredentialStorage) s'
     = Done (AccessToken (credentials (graphCredentialStorage s')), false).
Proof.
  cbv zeta.
  assert (Hst : authenticated (graphCredentialStorage (exec loadExistingCredentials s)) = false
                /\ lock (graphCredentialStorage (exec loadExistingCredentials s)) = false).
  { destruct s as [oa [br pe sp] [lk cr ex au] rn lg fl cf wf clf ef ck tr].
    unfold exec, loadExistingCredentials. go_compute.
    repeat (break_match; go_compute); split; reflexivity. }
  destruct Hst as [Hau Hlk]. repeat split; try assumption.
  unfold result. rewrite GetAccessToken_ready by exact Hlk. cbn [fst].
  rewrite Hau. reflexivity.
Qed.

Lemma nonempty_true (path : string) : path <> "" -> nonempty path = true.
Proof.
  intros Hne. unfold nonempty.
  apply negb_true_iff, String.eqb_neq. exact Hne.
Qed.


(** C5, at the failing input.  With a stored [expires_in] of 30 the
    subtraction wraps: the loop sleeps 65506 seconds, and a run of the
    loop on such a credential shows that sleep before its first refresh. *)
Theorem sleep_wraps_below_margin :
  timeUntilRefresh (with_credentials token_short zero_CredentialStorage)
  = 65506 * time_Second
  /\ head (trace (exec (refreshTokenManager addr_graphCredentialStorage [TransportError])
                      (set_storage (with_credentials token_short zero_CredentialStorage)
                         (set_credentialsConfig (mkCredentialsConfig false false "")
                            (configured 0)))))
     = Some (EvSleep 65506000000000).
Proof. split; vm_compute; reflexivity. Qed.

(** The part of C5 the code keeps: the sleep is never negative, and from
    a lifetime of 60 seconds on it is the lifetime minus the margin. *)
Lemma timeUntilRefresh_nonneg (c : CredentialStorage) : 0 <= timeUntilRefresh c.
Proof.
  unfold timeUntilRefresh, uint16_sub, time_Second.
  pose proof (Z.mod_pos_bound (ExpiresIn (credentials c) - 60) 65536 eq_refl). lia.
Qed.

Lemma timeUntilRefresh_above_margin (c : CredentialStorage) :
  60 <= ExpiresIn (credentials c) < 65536 ->
  timeUntilRefresh c = (ExpiresIn (credentials c) - 60) * time_Second.
Proof.
  intros Hr. unfold timeUntilRefresh, uint16_sub.
  rewrite Z.mod_small by lia. reflexivity.
Qed.

End StartupProperties.



(** ** The store over any run of operations *)

Section StoreInvariant.
Context `{External}.

(** What any single operation does to the store, from any state: an
    exchange that runs to its end with a decodable token writes exactly
    that token and the expiry computed from the clock; everything else
    leaves the store unauthenticated or as it was. *)
Lemma perform_store (op : operation) (s : state) :
  match result (perform op) s, granted op with
  | Done _, Some graphAuth =>
      graphCredentialStorage (exec (perform op) s)
      = written graphAuth (clock s) (graphCredentialStorage s)
  | _, _ =>
      authenticated (graphCredentialStorage (exec (perform op) s)) = false
      \/ graphCredentialStorage (exec (perform op) s) = graphCredentialStorage s
  end.
Proof.
  destruct s as [oa [br pe sp] [lk cr ex au] rn lg fl cf wf clf ef ck tr].
  destruct op as [ | code [|st [|[tk sc ei at_ rt]]]
                   | [|st [|[tk sc ei at_ rt]]] | path | | d ];
    unfold perform, granted.
  all: destruct lk.
  all: go_compute.
  all: repeat (break_match; go_compute).
  all: first [ reflexivity | left; reflexivity | right; reflexivity | discriminate ].
Qed.

(** The store after a run, against the last exchange that stored a
    token. *)
Lemma run_ops_invariant (ops : list operation) (s0 : state) :
  authenticated (graphCredentialStorage s0) = false ->
  forall s h, run_ops ops s0 = (s, h) ->
  authenticated (graphCredentialStorage s) = true ->
  exists t graphAuth,
    h = Some (t, graphAuth)
    /\ credentials (graphCredentialStorage s) = graphAuth
    /\ expiresTimestamp (graphCredentialStorage s)
       = t + time_Second * ExpiresIn graphAuth.
Proof.
  intros H0. unfold run_ops.
  induction ops as [|op ops IH] using rev_ind; intros s h Hrun Hauth.
  - cbn in Hrun. injection Hrun as <- <-. congruence.
  - rewrite fold_left_app in Hrun. cbn [fold_left] in Hrun.
    destruct (fold_left (fun sh op0 => step op0 sh) ops (s0, None)) as [s1 h1] eqn:Hprev.
    specialize (IH s1 h1 eq_refl).
    pose proof (perform_store op s1) as Hop.
    unfold step, exec, result in *.
    destruct (perform op s1) as [o s2] eqn:Hperf. cbn [fst snd] in Hop.
    destruct o as [a|why|c|]; destruct (granted op) as [g|] eqn:Hg;
      injection Hrun as <- <-.
    1: { rewrite Hop. cbn. exists (clock s1), g. repeat split. }
    all: destruct Hop as [Hf | Hsame]; [congruence |].
    all: rewrite Hsame in *; exact (IH Hauth).
Qed.

(** X18.  Loading the persisted credential never sets the flag: whatever
    the file holds, whatever the decoder makes of it and however the load
    ends, the store has [authenticated = false] afterwards and a reader is
    told so.  The flag goes from [false] to [true] only in a call that
    runs to its end and stores a decoded answer: a callback whose answer
    decodes, whatever its status, or a refresh answered with status 200
    and a decodable body. *)
Theorem load_never_authenticates (s : state) :
  (let s' := exec loadExistingCredentials s in
   authenticated (graphCredentialStorage s') = false
   /\ result (GetAccessToken addr_graphCredentialStorage) s'
      = Done (AccessToken (credentials (graphCredentialStorage s')), false))
  /\ (forall op s1,
        authenticated (graphCredentialStorage s1) = false ->
        authenticated (graphCredentialStorage (exec (perform op) s1)) = true ->
        exists graphAuth a,
          granted op = Some graphAuth
          /\ result (perform op) s1 = Done a
          /\ credentials (graphCredentialStorage (exec (perform op) s1)) = graphAuth).
Proof.
  split.
  - pose proof (loadExistingCredentials_store s) as (Hau & _ & Hread).
    split; assumption.
  - intros op s1 Hbefore Hafter.
    pose proof (perform_store op s1) as Hop.
    destruct (result (perform op) s1) as [a|why|c|] eqn:Hres;
      destruct (granted op) as [g|] eqn:Hg.
    1: { exists g, a. rewrite Hop. repeat split. }
    all: destruct Hop as [Hf | Hsame]; congruence.
Qed.

(** C6, as amended.  In every state reached from an unauthenticated one
    by loads, callbacks, refreshes, saves, reads and the passing of time,
    [authenticated = true] implies that the stored credential is the one
    the last storing exchange received and that the stored expiry is the
    time of that exchange plus the credential's [expires_in] seconds; the
    access token is the one received, empty or not. *)
Theorem store_invariant (ops : list operation) (s0 : state) :
  authenticated (graphCredentialStorage s0) = false ->
  let s := fst (run_ops ops s0) in
  let h := snd (run_ops ops s0) in
  authenticated (graphCredentialStorage s) = true ->
  exists t graphAuth,
    h = Some (t, graphAuth)
    /\ credentials (graphCredentialStorage s) = graphAuth
    /\ expiresTimestamp (graphCredentialStorage s)
       = t + time_Second * ExpiresIn graphAuth.
Proof.
  intros H0 s h. subst s h.
  destruct (run_ops ops s0) as [s h] eqn:Hrun. cbn [fst snd].
  exact (run_ops_invariant ops s0 H0 s h Hrun).
Qed.

End StoreInvariant.

(** C10, at the failing input.  A start-up without a persisted
    credential leaves the store unauthenticated, as the claim says of
    every load.  The callback that follows, with [code=bad], is answered
    with status 400 and a JSON error document: the exchange failed, and
    yet the flag goes up and a reader is told [authenticated = true]
    with an empty token. *)
Theorem failed_exchange_authenticates :
  let started := exec (Run fixture_oauth (mkCredentialsConfig true false "")
                         (Some logrus) TransportError) (boot 0) in
  let rejected := Response 400 (Json zero_GraphAuthentication) in
  result (GetAccessToken addr_graphCredentialStorage) started = Done ("", false)
  /\ failed_exchange rejected
  /\ result (GetAccessToken addr_graphCredentialStorage)
       (exec (callbackHandler "bad" rejected) started)
     = Done ("", true).
Proof.
  cbv zeta. split; [vm_compute; reflexivity |].
  split; [left; discriminate | vm_compute; reflexivity].
Qed.

(** A callback answered with [tok1] at time 5, then a minute of sleep. *)
Lemma store_invariant_witness :
  exists t graphAuth,
    snd (run_ops [OpCallback "abc" (Response 200 (Json token_tok1));
                  OpSleep (60 * time_Second)] (configured 5))
    = Some (t, graphAuth)
    /\ credentials (graphCredentialStorage
         (fst (run_ops [OpCallback "abc" (Response 200 (Json token_tok1));
                        OpSleep (60 * time_Second)] (configured 5))))
       = graphAuth
    /\ expiresTimestamp (graphCredentialStorage
         (fst (run_ops [OpCallback "abc" (Response 200 (Json token_tok1));
                        OpSleep (60 * time_Second)] (configured 5))))
       = t + time_Second * ExpiresIn graphAuth.
Proof.
  apply (store_invariant
           [OpCallback "abc" (Response 200 (Json token_tok1));
            OpSleep (60 * time_Second)] (configured 5)).
  - reflexivity.
  - vm_compute. reflexivity.
Defined.

(** C6 as stated fails: a callback whose answer decodes to a credential
    without access token leaves the store authenticated with an empty
    token. *)
Lemma authenticated_with_empty_token :
  authenticated (graphCredentialStorage (configured 0)) = false
  /\ authenticated (graphCredentialStorage
       (fst (run_ops [OpCallback "abc" (Response 200 (Json token_without_access))]
                     (configured 0)))) = true
  /\ AccessToken (credentials (graphCredentialStorage
       (fst (run_ops [OpCallback "abc" (Response 200 (Json token_without_access))]
                     (configured 0))))) = "".
Proof. vm_compute. repeat split. Qed.

(** ** The refresh loop *)

Section LoopProperties.
Context `{External}.

Lemma persistCredentials_steady (path : string) (s : state) :
  steady s ->
  exists s',
    persistCredentials addr_graphCredentialStorage path s = (Done tt, s')
    /\ persisted_frame s s'.
Proof.
  intros [[[impl Hlog] Hlock] (Hcf & Hwf & Hclf)].
  destruct s as [oa [br pe sp] [lk cr ex au] rn lg fl cf wf clf ef ck tr].
  cbn in Hlog, Hlock, Hcf, Hwf, Hclf. subst lk lg cf wf clf.
  unfold persistCredentials. go_compute.
  repeat (break_match; go_compute).
  all: try match goal with
           | Hin : _ ∈ ∅ |- _ => exfalso; exact (not_elem_of_empty _ Hin)
           end.
  all: eexists; split; [reflexivity |].
  all: repeat split.
  all: unfold refresh_attempts; cbn [trace];
       rewrite ?List.filter_app, ?length_app; cbn; lia.
Qed.

Lemma steady_persisted (s s' : state) :
  persisted_frame s s' -> steady s -> steady s'.
Proof.
  intros (_ & _ & Hst & _ & Hlg & Hcf & Hwf & Hclf & _) [[Hlog Hlock] (H1 & H2 & H3)].
  repeat split; try congruence.
  rewrite Hlg. exact Hlog.
Qed.

(** One turn of the loop from a steady state: the refresh is sent, and
    the loop stops or goes on as the refresh returned an error or not. *)
Lemma loop_turn (resp : post_result) (later : list post_result) (s : state) :
  steady s ->
  exists s2 now,
    steady s2
    /\ refresh_attempts s2 = S (refresh_attempts s)
    /\ graphCredentialStorage s2 = refreshed resp now (graphCredentialStorage s)
    /\ refreshTokenManager_loop addr_graphCredentialStorage (resp :: later) s
       = match refresh_error resp with
         | Some _ => (Done Stopped, set_running false s2)
         | None => refreshTokenManager_loop addr_graphCredentialStorage later s2
         end.
Proof.
  intros Hsteady.
  assert (Hp : exists s1,
             (if Persist (credentialsConfig s)
              then persistCredentials addr_graphCredentialStorage
                     (StoragePath (credentialsConfig s))
              else ret tt) s = (Done tt, s1)
             /\ persisted_frame s s1).
  { destruct (Persist (credentialsConfig s)).
    - apply persistCredentials_steady, Hsteady.
    - exists s. split; [reflexivity | repeat split]. }
  destruct Hp as (s1 & Hp & Hframe).
  pose proof (steady_persisted s s1 Hframe Hsteady) as Hsteady1.
  cbn [refreshTokenManager_loop].
  unfold bind at 1. cbv beta iota delta [get].
  unfold bind at 1. rewrite Hp.
  destruct Hframe as (_ & _ & Hst & _ & _ & _ & _ & _ & _ & _ & Hatt).
  rewrite <- Hst, <- Hatt. clear Hst Hatt Hp.
  destruct Hsteady1 as [[[impl Hlog] Hlock] (Hcf & Hwf & Hclf)].
  destruct s1 as [oa cc [lk cr ex au] rn lg fl cf wf clf ef ck tr].
  cbn in Hlog, Hlock, Hcf, Hwf, Hclf. subst lk lg cf wf clf.
  go_step.
  match goal with
  | |- context [refreshTokenHandler resp ?st] =>
      destruct (refreshTokenHandler_ready resp st) as (s2 & Heq & Hst2 & Hw & Hatt2);
      [ split; [exists impl; reflexivity | reflexivity] | rewrite Heq ]
  end.
  exists s2. eexists. 
  destruct Hw as (_ & _ & _ & Hlg & _ & Hcf & Hwf & Hclf & _).
  cbn in Hst2, Hlg, Hcf, Hwf, Hclf, Hatt2.
  split; [| split; [| split]].
  - repeat split; try assumption.
    + exists impl. exact Hlg.
    + rewrite Hst2. destruct resp as [|st [|g]]; cbn; try reflexivity;
        destruct (Z.eqb st 200); reflexivity.
  - rewrite Hatt2. f_equal.
    unfold refresh_attempts; cbn [trace].
    rewrite ?List.filter_app, ?length_app; cbn. lia.
  - exact Hst2.
  - go_step. destruct (refresh_error resp); reflexivity.
Qed.

Lemma bind_done {A B} (m : M A) (k : A -> M B) (s s' : state) (a : A) :
  m s = (Done a, s') -> bind m k s = k a s'.
Proof. intros Hm. unfold bind. rewrite Hm. reflexivity. Qed.

Lemma run_result {A} (m : M A) (s : state) (a : A) :
  result m s = Done a -> m s = (Done a, exec m s).
Proof. unfold result, exec. destruct (m s) as [o s']. cbn. intros ->. reflexivity. Qed.

Lemma bind_ext {A B} (m : M A) (k1 k2 : A -> M B) (s : state) :
  (forall a s', m s = (Done a, s') -> k1 a s' = k2 a s') ->
  bind m k1 s = bind m k2 s.
Proof.
  intros Hk. unfold bind. destruct (m s) as [[a|why|c|] s']; auto.
Qed.

Lemma refresh_malformed_returns_error (s s' : state) (e : error) :
  refreshTokenHandler (Response 200 Malformed) s = (Done e, s') ->
  exists msg, e = Some msg.
Proof.
  destruct s as [oa [br pe sp] [lk cr ex au] rn lg fl cf wf clf ef ck tr].
  unfold refreshTokenHandler. change (Z.eqb 200 200) with true.
  destruct lk; go_compute.
  all: repeat (break_match; go_compute).
  all: intros Heq; inversion Heq; eauto.
Qed.

(** Whatever the state, the answers that follow a 200 with an undecodable
    body are never used. *)
Lemma loop_ignores_later (receiver : ptr) (before later : list post_result) (s : state) :
  refreshTokenManager_loop receiver (before ++ Response 200 Malformed :: later) s
  = refreshTokenManager_loop receiver (before ++ [Response 200 Malformed]) s.
Proof.
  revert s. induction before as [|resp before IH]; intros s; cbn [app refreshTokenManager_loop].
  all: repeat (apply bind_ext; intros ? ? ?).
  - match goal with
    | Hh : refreshTokenHandler _ _ = (Done ?e, _) |- _ =>
        destruct (refresh_malformed_returns_error _ _ _ Hh) as [msg ->]
    end.
    reflexivity.
  - match goal with
    | |- match ?e with _ => _ end _ = _ => destruct e; [reflexivity | apply IH]
    end.
Qed.

Lemma loop_reaches_stop (before : list post_result) (s : state) :
  steady s ->
  Forall keeps_looping before ->
  exists s2,
    refreshTokenManager_loop addr_graphCredentialStorage
      (before ++ [Response 200 Malformed]) s
    = (Done Stopped, set_running false s2)
    /\ refresh_attempts s2 = (refresh_attempts s + length before + 1)%nat
    /\ store_cleared (graphCredentialStorage s2).
Proof.
  intros Hsteady Hall. revert s Hsteady.
  induction Hall as [|resp before Hresp Hall IH]; intros s Hsteady; cbn [app].
  - destruct (loop_turn (Response 200 Malformed) [] s Hsteady)
      as (s2 & now & _ & Hatt & Hst & Hloop).
    exists s2. split; [exact Hloop |]. split; [cbn; lia |].
    rewrite Hst. split; reflexivity.
  - destruct (loop_turn resp (before ++ [Response 200 Malformed]) s Hsteady)
      as (s2 & now & Hsteady2 & Hatt & _ & Hloop).
    assert (Herr : refresh_error resp = None).
    { destruct Hresp as [-> | [g ->]]; reflexivity. }
    rewrite Herr in Hloop. rewrite Hloop.
    destruct (IH s2 Hsteady2) as (s3 & Hloop3 & Hatt3 & Hcl).
    exists s3. split; [exact Hloop3 |]. split; [cbn [length]; lia | exact Hcl].
Qed.

Lemma bind_switch {A B} (m : M A) (k1 k2 : A -> M B) (s s' : state) (b : B)
    (r : outcome B * state) :
  bind m k1 s = (Done b, s') ->
  (forall a sa, m s = (Done a, sa) -> k1 a sa = (Done b, s') -> k2 a sa = r) ->
  bind m k2 s = r.
Proof.
  unfold bind. destruct (m s) as [[a|why|c|] sa]; intros Hk1 Hk2; try discriminate.
  exact (Hk2 a sa eq_refl Hk1).
Qed.

(** A loop still running after some answers goes on with the following
    ones from the state it reached. *)
Lemma loop_app (receiver : ptr) (before rest : list post_result) (s s1 : state) :
  refreshTokenManager_loop receiver before s = (Done Running, s1) ->
  refreshTokenManager_loop receiver (before ++ rest) s
  = refreshTokenManager_loop receiver rest s1.
Proof.
  revert s. induction before as [|resp before IH]; intros s Hrun.
  - cbn in Hrun. injection Hrun as <-. reflexivity.
  - cbn [app refreshTokenManager_loop] in Hrun |- *.
    repeat match goal with
           | Hk : bind _ _ _ = (Done _, _) |- bind _ _ _ = _ =>
               eapply bind_switch; [exact Hk | clear Hk; intros ? ? _ Hk; cbv beta in Hk]
           end.
    match goal with
    | Hk : match ?e with _ => _ end _ = _ |- _ =>
        destruct e; [unfold bind, modify, ret in Hk; discriminate Hk | apply IH; exact Hk]
    end.
Qed.

(** From a steady state, a loop still running after some answers is in a
    steady state again and has sent one refresh per answer. *)
Lemma loop_running_steady (before : list post_result) (s s1 : state) :
  steady s ->
  refreshTokenManager_loop addr_graphCredentialStorage before s = (Done Running, s1) ->
  steady s1 /\ refresh_attempts s1 = (refresh_attempts s + length before)%nat.
Proof.
  revert s. induction before as [|resp before IH]; intros s Hsteady Hrun.
  - cbn in Hrun. injection Hrun as <-. split; [exact Hsteady | cbn; lia].
  - destruct (loop_turn resp before s Hsteady) as (s2 & now & Hsteady2 & Hatt & _ & Hloop).
    rewrite Hloop in Hrun.
    destruct (refresh_error resp); [discriminate Hrun |].
    destruct (IH s2 Hsteady2 Hrun) as (Hsteady1 & Hatt1).
    split; [exact Hsteady1 | cbn [length]; lia].
Qed.

(** Transport failures and tokens keep the loop running. *)
Lemma loop_keeps_running (before : list post_result) (s : state) :
  steady s ->
  Forall keeps_looping before ->
  exists s1,
    refreshTokenManager_loop addr_graphCredentialStorage before s = (Done Running, s1).
Proof.
  intros Hsteady Hall. revert s Hsteady.
  induction Hall as [|resp before Hresp Hall IH]; intros s Hsteady.
  - exists s. reflexivity.
  - destruct (loop_turn resp before s Hsteady) as (s2 & now & Hsteady2 & _ & _ & Hloop).
    assert (Herr : refresh_error resp = None).
    { destruct Hresp as [-> | [g ->]]; reflexivity. }
    rewrite Herr in Hloop. rewrite Hloop. exact (IH s2 Hsteady2).
Qed.

(** C2, as amended.  For a refresh loop started from a steady state:
    answers that are transport failures or tokens do not stop it, it is
    still running after them and has sent one refresh per answer; and
    whenever it is still running after the answers received so far, a
    refresh answered with status 200 and an undecodable body stops it:
    the run ends [Stopped], the running flag is down, the store is
    cleared, exactly one more refresh was sent, and the answers that
    would follow play no part. *)
Theorem manager_stops_on_decode_failure
    (before later : list post_result) (s : state) :
  steady s ->
  refreshTokenManagerRunning s = false ->
  (Forall keeps_looping before ->
     result (refreshTokenManager addr_graphCredentialStorage before) s = Done Running
     /\ refresh_attempts (exec (refreshTokenManager addr_graphCredentialStorage before) s)
        = (refresh_attempts s + length before)%nat)
  /\ (result (refreshTokenManager addr_graphCredentialStorage before) s = Done Running ->
      let run := refreshTokenManager addr_graphCredentialStorage
                   (before ++ Response 200 Malformed :: later) in
      result run s = Done Stopped
      /\ refreshTokenManagerRunning (exec run s) = false
      /\ refresh_attempts (exec run s) = (refresh_attempts s + length before + 1)%nat
      /\ store_cleared (graphCredentialStorage (exec run s))
      /\ run s = refreshTokenManager addr_graphCredentialStorage
                   (before ++ [Response 200 Malformed]) s).
Proof.
  intros Hsteady Hflag.
  assert (Hsteady' : steady (set_running true s)).
  { destruct Hsteady as [[Hlog Hlock] Hdisk]. repeat split; try apply Hdisk; assumption. }
  assert (Hunfold : forall answers,
             refreshTokenManager addr_graphCredentialStorage answers s
             = refreshTokenManager_loop addr_graphCredentialStorage answers
                 (set_running true s)).
  { intros answers. unfold refreshTokenManager.
    cbv beta iota delta [bind get]. rewrite Hflag. reflexivity. }
  split.
  - intros Hall.
    destruct (loop_keeps_running before (set_running true s) Hsteady' Hall) as (s1 & Hloop).
    destruct (loop_running_steady before (set_running true s) s1 Hsteady' Hloop)
      as (_ & Hatt).
    unfold result, exec. rewrite Hunfold, Hloop. cbn [fst snd].
    split; [reflexivity | exact Hatt].
  - intros Hrunning run. subst run.
    apply run_result in Hrunning. rewrite Hunfold in Hrunning.
    set (s1 := exec (refreshTokenManager addr_graphCredentialStorage before) s) in *.
    destruct (loop_running_steady before (set_running true s) s1 Hsteady' Hrunning)
      as (Hsteady1 & Hatt1).
    destruct (loop_turn (Response 200 Malformed) later s1 Hsteady1)
      as (s2 & now & _ & Hatt2 & Hst2 & Hloop2).
    cbn [refresh_error Z.eqb Pos.eqb] in Hloop2.
    assert (Hrun : refreshTokenManager_loop addr_graphCredentialStorage
                     (before ++ Response 200 Malformed :: later) (set_running true s)
                   = (Done Stopped, set_running false s2)).
    { rewrite (loop_app _ _ _ _ _ Hrunning). exact Hloop2. }
    unfold result, exec.
    rewrite (Hunfold (before ++ [Response 200 Malformed])%list).
    rewrite <- (loop_ignores_later _ before later).
    rewrite Hunfold, Hrun. cbn [fst snd].
    split; [reflexivity |]. split; [reflexivity |].
    split; [change (refresh_attempts (set_running false s2)) with (refresh_attempts s2);
            change (refresh_attempts (set_running true s)) with (refresh_attempts s) in Hatt1;
            lia |].
    split; [| reflexivity].
    cbn [set_running graphCredentialStorage]. rewrite Hst2. split; reflexivity.
Qed.

End LoopProperties.

(** A session whose first refresh fails in transport and whose second is
    answered with an undecodable 200: two refreshes are sent, then the
    loop stops; the third answer is never asked for. *)
Lemma manager_stops_on_decode_failure_witness :
  result (refreshTokenManager addr_graphCredentialStorage
            [TransportError; Response 200 Malformed; Response 200 (Json token_tok1)])
         (in_session 0)
  = Done Stopped.
Proof.
  refine (proj1 (proj2 (manager_stops_on_decode_failure
                          [TransportError] [Response 200 (Json token_tok1)] (in_session 0)
                          _ _) _)).
  - repeat split. exists logrus. reflexivity.
  - reflexivity.
  - vm_compute. reflexivity.
Defined.

(** C2 as stated fails on a transport failure: the refresh fails, the
    loop turns again and sends a second refresh, and is still running. *)
Lemma loop_retries_after_transport_failure :
  failed_exchange TransportError
  /\ result (refreshTokenManager addr_graphCredentialStorage
               [TransportError; TransportError]) (in_session 0)
     = Done Running
  /\ refresh_attempts
       (exec (refreshTokenManager addr_graphCredentialStorage
                [TransportError; TransportError]) (in_session 0)) = 2%nat
  /\ refreshTokenManagerRunning
       (exec (refreshTokenManager addr_graphCredentialStorage
                [TransportError; TransportError]) (in_session 0)) = true.
Proof. split; [exact I |]. vm_compute. repeat split. Qed.

(** ** Start-up *)

Section RunProperties.
Context `{External}.

Lemma supervisor_started_emit (s : state) :
  supervisor_started (emit EvGo_refreshTokenManager s).
Proof.
  unfold supervisor_started, emit; cbn [trace].
  rewrite existsb_app. cbn. apply orb_true_r.
Qed.

(** C9.  A start-up whose load returns with a refresh token and whose
    refresh the provider answers with a token: [Run] starts the refresh
    loop and returns the nil pointer, while the store holds the live
    session.  A read through the nil pointer panics, and so does the
    caller's [fetchEventsFromOutlook] on what [Run] returned (main.go,
    lines 129 and 164); the same read on the store itself gives the token
    and [true]. *)
Theorem run_returns_nil_after_silent_refresh
    (oauth : OauthConfig) (appConfig : CredentialsConfig) (impl : Logger)
    (graphAuth : GraphAuthentication) (s : state) :
  let s0 := set_credentialsConfig appConfig (set_oauthConfig oauth s) in
  result loadExistingCredentials s0 = Done tt ->
  RefreshToken (credentials (graphCredentialStorage (exec loadExistingCredentials s0))) <> "" ->
  let run := Run oauth appConfig (Some impl) (Response 200 (Json graphAuth)) in
  result run s = Done nil_ptr
  /\ supervisor_started (exec run s)
  /\ result (GetAccessToken addr_graphCredentialStorage) (exec run s)
     = Done (AccessToken graphAuth, true)
  /\ (forall s', result (GetAccessToken nil_ptr) s' = Panic "nil pointer dereference")
  /\ result (graphCredentials <- run ;; fetchEventsFromOutlook graphCredentials) s
     = Panic "nil pointer dereference".
Proof.
  intros s0 Hload Hrt run.
  pose proof (loadExistingCredentials_store s0) as (_ & Hlock & _).
  apply run_result in Hload.
  set (s1 := exec loadExistingCredentials s0) in *.
  set (st := emit (EvHandleFunc "/callback")
              (emit (EvHandleFunc "/error")
                (emit (EvHandleFunc "/success")
                  (emit (EvHandleFunc "/login")
                    (emit (EvHandleFunc "/home") (set_logger (Some impl) s1)))))).
  assert (Hready : ready st).
  { split; [exists impl; reflexivity | exact Hlock]. }
  destruct (refreshTokenHandler_ready (Response 200 (Json graphAuth)) st Hready)
    as (s2 & Hh & Hst & _).
  assert (Hrun : run s = (Done nil_ptr, emit EvGo_refreshTokenManager s2)).
  { subst run. unfold Run.
    erewrite bind_done by reflexivity.
    erewrite bind_done by reflexivity.
    erewrite bind_done by exact Hload.
    do 7 (erewrite bind_done by reflexivity).
    change (graphCredentialStorage _) with (graphCredentialStorage s1) at 1.
    rewrite (nonempty_true _ Hrt).
    erewrite (bind_done (bind _ _) _ _ (emit EvGo_refreshTokenManager s2) (Some nil_ptr)).
    - reflexivity.
    - erewrite bind_done by exact Hh. reflexivity. }
  unfold result, exec. rewrite Hrun. cbn [fst snd].
  split; [reflexivity |].
  split; [apply supervisor_started_emit |].
  split.
  - rewrite GetAccessToken_ready; cbn [graphCredentialStorage emit].
    + rewrite Hst. reflexivity.
    + rewrite Hst. exact Hlock.
  - split; [intros s'; reflexivity |].
    unfold bind. rewrite Hrun. reflexivity.
Qed.

End RunProperties.

(** A start-up that finds the persisted credential with refresh token
    [rt-123] and is answered with [tok1]. *)
Lemma run_returns_nil_after_silent_refresh_witness :
  result (Run fixture_oauth fixture_config (Some logrus) (Response 200 (Json token_tok1)))
         (boot_with_file 0)
  = Done nil_ptr.
Proof.
  refine (proj1 (run_returns_nil_after_silent_refresh
                   fixture_oauth fixture_config logrus token_tok1 (boot_with_file 0) _ _)).
  - vm_compute. reflexivity.
  - vm_compute. discriminate.
Defined.

(** C3, at the failing input.  A start-up that finds the persisted
    credential with refresh token [rt-123] and whose refresh the provider
    answers with status 400: the store is unauthenticated and the browser
    is sent to the login page, and yet [Run] takes the branch of a
    successful refresh: it starts the refresh loop, which enters its
    [for] loop, and returns the nil pointer. *)
Theorem rejected_refresh_starts_supervisor :
  let run := Run fixture_oauth fixture_config (Some logrus)
               (Response 400 (Json zero_GraphAuthentication)) in
  let s' := exec run (boot_with_file 0) in
  authenticated (graphCredentialStorage s') = false
  /\ login_page_opened s'
  /\ supervisor_started s'
  /\ result run (boot_with_file 0) = Done nil_ptr
  /\ result (refreshTokenManager addr_graphCredentialStorage []) s' = Done Running
  /\ refreshTokenManagerRunning
       (exec (refreshTokenManager addr_graphCredentialStorage []) s') = true.
Proof. vm_compute. repeat split. Qed.

(** * Further properties of the code *)

(** ** The readers of the event list (main.go) *)

Section EventReaders.
Context `{External} `{TimeLib}.

Lemma not_upcoming_ltb (now : Z) (e : OutlookEvent) :
  ~ upcoming now e -> Z.ltb now (parse_DateTime (Start e)) = false.
Proof. unfold upcoming. intros Hn. apply Z.ltb_ge. lia. Qed.

Lemma upcoming_ltb (now : Z) (e : OutlookEvent) :
  upcoming now e -> Z.ltb now (parse_DateTime (Start e)) = true.
Proof. unfold upcoming. intros Hn. apply Z.ltb_lt. exact Hn. Qed.

Lemma nextEventHandler_loop_skip (past events : list OutlookEvent) (s : state) :
  Forall (fun e => ~ upcoming (clock s) e) past ->
  nextEventHandler_loop (past ++ events) s = nextEventHandler_loop events s.
Proof.
  induction 1 as [|e past He _ IH]; [reflexivity |].
  cbn [app nextEventHandler_loop]. unfold bind at 1, time_Now.
  rewrite (not_upcoming_ltb _ _ He). exact IH.
Qed.

Lemma persistEvent_loop_skip (past events : list OutlookEvent) (init : string) (s : state) :
  Forall (fun e => ~ upcoming (clock s) e) past ->
  persistEvent_loop (past ++ events) init s = persistEvent_loop events init s.
Proof.
  induction 1 as [|e past He _ IH]; [reflexivity |].
  cbn [app persistEvent_loop]. unfold bind at 1, time_Now.
  rewrite (not_upcoming_ltb _ _ He). exact IH.
Qed.

Lemma length_pos_app {A} (l1 : list A) (x : A) (l2 : list A) :
  (0 <? length (l1 ++ x :: l2))%nat = true.
Proof. apply Nat.ltb_lt. rewrite length_app. cbn. lia. Qed.

(** X1.  [nextEventHandler] answers with the first event of the list
    that starts after the present instant, whatever follows it: the
    events before it have all started, and nothing else is written. *)
Theorem next_event_is_first_upcoming
    (graphEvents : OutlookEventList) (past rest : list OutlookEvent)
    (e : OutlookEvent) (s : state) :
  Value graphEvents = (past ++ e :: rest)%list ->
  Forall (fun x => ~ upcoming (clock s) x) past ->
  upcoming (clock s) e ->
  nextEventHandler graphEvents s = (Done tt, emit (EvFprint (handler_line e)) s).
Proof.
  intros Hv Hpast He. unfold nextEventHandler. rewrite Hv, length_pos_app.
  rewrite (nextEventHandler_loop_skip _ _ _ Hpast).
  cbn [nextEventHandler_loop]. unfold bind, time_Now.
  rewrite (upcoming_ltb _ _ He). reflexivity.
Qed.

(** X2.  When no event of the list starts after the present instant,
    [nextEventHandler] writes ["No events"] only if the list is empty; on
    a list of events that have all started it writes nothing at all and
    changes nothing. *)
Theorem next_event_none_upcoming (graphEvents : OutlookEventList) (s : state) :
  Forall (fun x => ~ upcoming (clock s) x) (Value graphEvents) ->
  nextEventHandler graphEvents s
  = (Done tt, match Value graphEvents with
              | [] => emit (EvFprint "No events") s
              | _ :: _ => s
              end).
Proof.
  intros Hall. unfold nextEventHandler.
  destruct (Value graphEvents) as [|e events] eqn:Hv; [reflexivity |].
  change (0 <? length (e :: events))%nat with true. cbv iota.
  rewrite <- (app_nil_r (e :: events)).
  rewrite (nextEventHandler_loop_skip _ _ _ Hall). reflexivity.
Qed.

(** What [persistEvent] computes as the text to write. *)
Lemma persistEvent_text_upcoming
    (past rest : list OutlookEvent) (e : OutlookEvent) (s : state) :
  Forall (fun x => ~ upcoming (clock s) x) past ->
  upcoming (clock s) e ->
  (if (0 <? length (past ++ e :: rest))%nat
   then persistEvent_loop (past ++ e :: rest) "No events"
   else ret "No events") s = (Done (file_line e), s).
Proof.
  intros Hpast He. rewrite length_pos_app.
  rewrite (persistEvent_loop_skip _ _ _ _ Hpast).
  cbn [persistEvent_loop]. unfold bind, time_Now.
  rewrite (upcoming_ltb _ _ He). reflexivity.
Qed.

Lemma persistEvent_text_none (events : list OutlookEvent) (s : state) :
  Forall (fun x => ~ upcoming (clock s) x) events ->
  (if (0 <? length events)%nat
   then persistEvent_loop events "No events"
   else ret "No events") s = (Done "No events", s).
Proof.
  intros Hall. destruct events as [|e events]; [reflexivity |].
  change (0 <? length (e :: events))%nat with true. cbv iota.
  rewrite <- (app_nil_r (e :: events)).
  rewrite (persistEvent_loop_skip _ _ _ _ Hall). reflexivity.
Qed.

Lemma persistEvent_writes (l : OutlookEventList) (path text : string) (s : state) :
  path <> "" ->
  EventsLock l = false ->
  (if (0 <? length (Value l))%nat
   then persistEvent_loop (Value l) "No events"
   else ret "No events") s = (Done text, s) ->
  filepath_Join path "next_event" ∉ create_fails s ->
  filepath_Join path "next_event" ∉ write_fails s ->
  filepath_Join path "next_event" ∉ close_fails s ->
  persistEvent l path s
  = (Done tt,
     set_files (<[filepath_Join path "next_event" := text]>
                  (<[filepath_Join path "next_event" := ""]> (files s))) s).
Proof.
  intros Hpath Hlock Htext Hcf Hwf Hclf.
  unfold persistEvent. rewrite (nonempty_true path Hpath). cbv iota. cbn [negb].
  rewrite Hlock.
  unfold bind at 1. unfold bind at 1. rewrite Htext.
  destruct s as [oa cc st rn lg fl cf wf clf ef ck tr].
  cbn in Hcf, Hwf, Hclf.
  unfold bind, os_Create, f_WriteString, f_Close, ret, set_files;
    cbn [create_fails write_fails close_fails files oauthConfig credentialsConfig
         graphCredentialStorage refreshTokenManagerRunning logger exec_fails clock trace].
  rewrite (decide_False (P := _ ∈ cf)) by exact Hcf.
  cbn [create_fails write_fails close_fails files oauthConfig credentialsConfig
         graphCredentialStorage refreshTokenManagerRunning logger exec_fails clock trace].
  rewrite (decide_False (P := _ ∈ wf)) by exact Hwf.
  cbn [create_fails write_fails close_fails files oauthConfig credentialsConfig
         graphCredentialStorage refreshTokenManagerRunning logger exec_fails clock trace].
  rewrite (decide_False (P := _ ∈ clf)) by exact Hclf.
  reflexivity.
Qed.

(** X3.  With a non-empty path, a free mutex and a disk that takes the
    write, [persistEvent] leaves in the file [next_event] the line of the
    first event that starts after the present instant; when no event
    does, the list being empty or not, it leaves ["No events"].  Nothing
    else changes. *)
Theorem persistEvent_file_content
    (l : OutlookEventList) (path : string) (s : state) :
  path <> "" ->
  EventsLock l = false ->
  filepath_Join path "next_event" ∉ create_fails s ->
  filepath_Join path "next_event" ∉ write_fails s ->
  filepath_Join path "next_event" ∉ close_fails s ->
  (forall past e rest,
     Value l = (past ++ e :: rest)%list ->
     Forall (fun x => ~ upcoming (clock s) x) past ->
     upcoming (clock s) e ->
     persistEvent l path s
     = (Done tt, set_files (<[filepath_Join path "next_event" := file_line e]> (files s)) s))
  /\ (Forall (fun x => ~ upcoming (clock s) x) (Value l) ->
      persistEvent l path s
      = (Done tt, set_files (<[filepath_Join path "next_event" := "No events"]> (files s)) s)).
Proof.
  intros Hpath Hlock Hcf Hwf Hclf. split.
  - intros past e rest Hv Hpast He.
    rewrite (persistEvent_writes l path (file_line e) s); try assumption.
    + rewrite insert_insert_eq. reflexivity.
    + rewrite Hv. apply persistEvent_text_upcoming; assumption.
  - intros Hall.
    rewrite (persistEvent_writes l path "No events" s); try assumption.
    + rewrite insert_insert_eq. reflexivity.
    + apply persistEvent_text_none. exact Hall.
Qed.

Lemma persistEvent_loop_returns (events : list OutlookEvent) (init : string) (s : state) :
  exists text, persistEvent_loop events init s = (Done text, s).
Proof.
  induction events as [|e events IH]; cbn [persistEvent_loop].
  - exists init. reflexivity.
  - unfold bind, time_Now.
    destruct (Z.ltb (clock s) (parse_DateTime (Start e))); [eexists; reflexivity | exact IH].
Qed.

(** X4.  [persistEvent] never stops the process: with its mutex free it
    returns whatever the disk does, it leaves the credential store and
    every file but [next_event] as they were, and when the file cannot be
    created it leaves the files untouched.  With an empty path it does
    nothing. *)
Theorem persistEvent_always_returns
    (l : OutlookEventList) (path : string) (s : state) :
  EventsLock l = false ->
  exists s',
    persistEvent l path s = (Done tt, s')
    /\ graphCredentialStorage s' = graphCredentialStorage s
    /\ (forall name, name <> filepath_Join path "next_event" ->
          files s' !! name = files s !! name)
    /\ (filepath_Join path "next_event" ∈ create_fails s -> files s' = files s)
    /\ (path = "" -> s' = s).
Proof.
  intros Hlock. unfold persistEvent.
  destruct (nonempty path) eqn:Hne; cbn [negb].
  2: { exists s. repeat split; reflexivity. }
  assert (Hpath : path <> "").
  { intros ->. discriminate Hne. }
  rewrite Hlock. unfold bind at 1. unfold bind at 1.
  assert (Htext : exists text,
             (if (0 <? length (Value l))%nat
              then persistEvent_loop (Value l) "No events"
              else ret "No events") s = (Done text, s)).
  { destruct (0 <? length (Value l))%nat;
      [apply persistEvent_loop_returns | eexists; reflexivity]. }
  destruct Htext as [text ->].
  destruct s as [oa cc st rn lg fl cf wf clf ef ck tr].
  go_compute.
  repeat (break_match; go_compute).
  all: eexists; split; [reflexivity |].
  all: split; [reflexivity |].
  all: split; [intros name Hname; cbn [files];
               rewrite ?lookup_insert_ne by congruence; reflexivity |].
  all: split; [intros Hin; cbn in Hin; try contradiction; reflexivity |].
  all: intros Hp; contradiction.
Qed.

End EventReaders.

(** At half past nine the stand-up has started and the review has not. *)
Lemma next_event_is_first_upcoming_witness :
  printed (exec (nextEventHandler fixture_events)
                (configured ((9 * 3600 + 1800) * time_Second)))
  = ["Review - 11:30 (1/1) Local"].
Proof.
  unfold exec.
  rewrite (next_event_is_first_upcoming fixture_events
             [fixture_event "Stand-up" "2030-01-01T09:00:00" "2030-01-01T10:30:00"] []
             (fixture_event "Review" "2030-01-01T10:30:00" "2030-01-01T10:30:00")
             (configured ((9 * 3600 + 1800) * time_Second))).
  - vm_compute. reflexivity.
  - reflexivity.
  - constructor; [| constructor]. unfold upcoming. vm_compute. discriminate.
  - unfold upcoming. vm_compute. reflexivity.
Defined.

(** At eleven both events have started: the handler writes nothing. *)
Lemma next_event_none_upcoming_witness :
  printed (exec (nextEventHandler fixture_events) (configured (11 * 3600 * time_Second)))
  = [].
Proof.
  unfold exec.
  rewrite (next_event_none_upcoming fixture_events (configured (11 * 3600 * time_Second))).
  - vm_compute. reflexivity.
  - repeat constructor; unfold upcoming; vm_compute; discriminate.
Defined.

(** At eleven both events have started: the file says so. *)
Lemma persistEvent_file_content_witness :
  files (exec (persistEvent fixture_events "/tmp") (configured (11 * 3600 * time_Second)))
    !! "/tmp/next_event"
  = Some "No events".
Proof.
  unfold exec.
  rewrite (proj2 (persistEvent_file_content fixture_events "/tmp"
                    (configured (11 * 3600 * time_Second))
                    ltac:(discriminate) eq_refl
                    (not_elem_of_empty _) (not_elem_of_empty _) (not_elem_of_empty _))).
  - vm_compute. reflexivity.
  - repeat constructor; unfold upcoming; vm_compute; discriminate.
Defined.

(** A disk on which [/tmp/next_event] cannot be created. *)
Lemma persistEvent_always_returns_witness :
  exists s',
    persistEvent fixture_events "/tmp"
      (mkState fixture_oauth fixture_config zero_CredentialStorage false (Some logrus)
         ∅ {[ "/tmp/next_event" ]} ∅ ∅ false 0 [])
    = (Done tt, s')
    /\ files s' = ∅.
Proof.
  destruct (persistEvent_always_returns fixture_events "/tmp"
              (mkState fixture_oauth fixture_config zero_CredentialStorage false (Some logrus)
                 ∅ {[ "/tmp/next_event" ]} ∅ ∅ false 0 []) eq_refl)
    as (s' & Hrun & _ & _ & Hfiles & _).
  exists s'. split; [exact Hrun |].
  apply Hfiles. change ("/tmp/next_event" ∈ ({[ "/tmp/next_event" ]} : gset string)).
  apply elem_of_singleton. reflexivity.
Defined.

(** ** The mutex and the persistence adapter (auth.go) *)

Section LockAndDisk.
Context `{External}.

(** X5.  No operation leaves the store's mutex held: from a state in
    which it is free, a load, a callback, a refresh, a save or a read
    never blocks, and the mutex is free again afterwards however the
    operation ends (return, panic or exit). *)
Theorem operations_release_lock (op : operation) (s : state) :
  lock (graphCredentialStorage s) = false ->
  lock (graphCredentialStorage (exec (perform op) s)) = false
  /\ result (perform op) s <> Blocked.
Proof.
  destruct s as [oa [br pe sp] [lk cr ex au] rn lg fl cf wf clf ef ck tr].
  cbn [graphCredentialStorage lock]. intros ->.
  destruct op as [ | code [|st [|g]] | [|st [|g]] | path | | d ];
    unfold perform.
  all: go_compute.
  all: repeat (break_match; go_compute).
  all: split; [reflexivity | discriminate].
Qed.

(** X6.  [persistCredentials] only ever writes the file
    [credentials.toml] under the given path: whatever the state and
    however it ends, the credential store is as before and every other
    file is as before; with an empty path it returns at once and changes
    nothing, even on a nil receiver. *)
Theorem persistCredentials_frame (receiver : ptr) (path : string) (s : state) :
  let s' := exec (persistCredentials receiver path) s in
  graphCredentialStorage s' = graphCredentialStorage s
  /\ (forall name, name <> filepath_Join path "credentials.toml" ->
        files s' !! name = files s !! name)
  /\ (path = "" -> persistCredentials receiver path s = (Done tt, s)).
Proof.
  cbv zeta. split; [| split].
  3: { intros ->. reflexivity. }
  all: destruct s as [oa [br pe sp] [lk cr ex au] rn lg fl cf wf clf ef ck tr].
  all: unfold persistCredentials; destruct receiver, lk; go_compute.
  all: repeat (break_match; go_compute).
  all: try reflexivity.
  all: intros name Hname; rewrite ?lookup_insert_ne by congruence; reflexivity.
Qed.

(** X7.  With a logger whose [Fatal] exits (logrus), a disk error while
    saving ends the process with status 1.  When the file cannot be
    created the files are as before; when it was created and the write
    fails, the file is left empty, so the credential saved before is
    lost. *)
Theorem persistCredentials_disk_error
    (path doc : string) (impl : Logger) (s : state) :
  path <> "" ->
  lock (graphCredentialStorage s) = false ->
  logger s = Some impl ->
  fatal_exits impl = true ->
  toml_Encode (credentials (graphCredentialStorage s)) = (doc, None) ->
  let name := filepath_Join path "credentials.toml" in
  let run := persistCredentials addr_graphCredentialStorage path in
  (name ∈ create_fails s ->
     result run s = Exit 1 /\ files (exec run s) = files s)
  /\ (name ∉ create_fails s -> name ∈ write_fails s ->
        result run s = Exit 1 /\ files (exec run s) !! name = Some "").
Proof.
  intros Hpath Hlock Hlog Hfatal Henc name run. subst name run.
  destruct s as [oa [br pe sp] [lk cr ex au] rn lg fl cf wf clf ef ck tr].
  destruct impl as [fe].
  cbn in Hlock, Hlog, Hfatal, Henc. subst lk lg fe.
  unfold persistCredentials. rewrite (nonempty_true path Hpath).
  cbn [create_fails write_fails].
  split.
  - intros Hin. go_compute. rewrite Henc. go_compute.
    rewrite (decide_True (P := _ ∈ cf)) by exact Hin. go_compute.
    split; reflexivity.
  - intros Hnin Hin. go_compute. rewrite Henc. go_compute.
    rewrite (decide_False (P := _ ∈ cf)) by exact Hnin. go_compute.
    rewrite (decide_True (P := _ ∈ wf)) by exact Hin. go_compute.
    split; [reflexivity | apply lookup_insert_eq].
Qed.

End LockAndDisk.

(** A live session, and a refresh answered with a token. *)
Lemma operations_release_lock_witness :
  lock (graphCredentialStorage
          (exec (perform (OpRefresh (Response 200 (Json token_tok1)))) (in_session 0)))
  = false.
Proof.
  exact (proj1 (operations_release_lock
                  (OpRefresh (Response 200 (Json token_tok1))) (in_session 0) eq_refl)).
Defined.

(** A live session on a disk where [/cache/credentials.toml] holds an
    older credential and takes no write. *)
Lemma persistCredentials_disk_error_witness :
  files (exec (persistCredentials addr_graphCredentialStorage "/cache")
          (mkState fixture_oauth fixture_config
             (mkCredentialStorage false token_tok1 0 true) false (Some logrus)
             {[ "/cache/credentials.toml" := toml_document persisted_rt123 ]}
             ∅ {[ "/cache/credentials.toml" ]} ∅ false 0 []))
    !! "/cache/credentials.toml"
  = Some "".
Proof.
  refine (proj2 (proj2 (persistCredentials_disk_error "/cache" (toml_document token_tok1) logrus
             (mkState fixture_oauth fixture_config
                (mkCredentialStorage false token_tok1 0 true) false (Some logrus)
                {[ "/cache/credentials.toml" := toml_document persisted_rt123 ]}
                ∅ {[ "/cache/credentials.toml" ]} ∅ false 0 [])
             _ eq_refl eq_refl eq_refl eq_refl) _ _)).
  - discriminate.
  - apply not_elem_of_empty.
  - change ("/cache/credentials.toml" ∈ ({[ "/cache/credentials.toml" ]} : gset string)).
    apply elem_of_singleton. reflexivity.
Defined.

(** ** Start-up paths of [Run] (auth.go) *)

Section RunPaths.
Context `{External}.

(** The load leaves the configuration as it found it. *)
Lemma loadExistingCredentials_config (s : state) :
  oauthConfig (exec loadExistingCredentials s) = oauthConfig s
  /\ credentialsConfig (exec loadExistingCredentials s) = credentialsConfig s.
Proof.
  destruct s as [oa [br pe sp] [lk cr ex au] rn lg fl cf wf clf ef ck tr].
  unfold exec, loadExistingCredentials. go_compute.
  repeat (break_match; go_compute); split; reflexivity.
Qed.

(** X8.  [Run] loads the persisted credential before it sets the
    package's logger.  In a fresh process with persistence on, a
    credential file that is missing, or one the decoder rejects, makes
    the load call the nil logger: [Run] panics before it registers any
    handler or sends any request. *)
Theorem first_start_needs_readable_file
    (oauth : OauthConfig) (appConfig : CredentialsConfig) (log : option Logger)
    (resp : post_result) (s : state) :
  logger s = None ->
  Persist appConfig = true ->
  let name := filepath_Join (StoragePath appConfig) "credentials.toml" in
  let run := Run oauth appConfig log resp in
  (files s !! name = None ->
     result run s = Panic "nil pointer dereference" /\ trace (exec run s) = trace s)
  /\ (forall doc,
        files s !! name = Some doc ->
        snd (toml_Decode doc zero_GraphAuthentication) <> None ->
        result run s = Panic "nil pointer dereference" /\ trace (exec run s) = trace s).
Proof.
  intros Hlog Hpe name run. subst name run.
  destruct s as [oa cc st rn lg fl cf wf clf ef ck tr].
  destruct appConfig as [br pe sp].
  cbn in Hlog, Hpe. subst lg pe. cbn [files StoragePath].
  split.
  - intros Hfile. unfold Run. go_compute. rewrite Hfile. go_compute.
    split; reflexivity.
  - intros doc Hfile Hdec. unfold Run. go_compute. rewrite Hfile. go_compute.
    destruct (toml_Decode doc zero_GraphAuthentication) as [v [e|]];
      [| contradiction Hdec; reflexivity].
    go_compute. split; reflexivity.
Qed.

(** What a refresh adds to the trace, from a ready state: one request
    carrying the stored refresh token, no start of the refresh loop, and
    one launch of the browser when it clears the store and the browser is
    configured. *)
Lemma refreshTokenHandler_trace (resp : post_result) (s : state) :
  ready s ->
  let s' := exec (refreshTokenHandler resp) s in
  posted_refresh_tokens s'
  = (posted_refresh_tokens s ++ [RefreshToken (credentials (graphCredentialStorage s))])%list
  /\ posted_codes s' = posted_codes s
  /\ supervisor_starts s' = supervisor_starts s
  /\ browser_launches s'
     = (browser_launches s
        + if Browser (credentialsConfig s) then
            match resp with
            | TransportError => 0
            | Response StatusCode Body =>
                if Z.eqb StatusCode 200
                then match Body with Malformed => 1 | Json _ => 0 end
                else 1
            end
          else 0)%nat.
Proof.
  intros [[impl Hlog] Hlock].
  destruct s as [oa [br pe sp] [lk cr ex au] rn lg fl cf wf clf ef ck tr].
  cbn in Hlog, Hlock. subst lk lg. cbv zeta.
  unfold posted_refresh_tokens, posted_codes, supervisor_starts, browser_launches.
  destruct resp as [|st [|g]]; [| destruct (Z.eqb st 200) eqn:Est ..].
  all: destruct br; destruct ef.
  all: unfold refreshTokenHandler; rewrite ?Est; go_compute.
  all: rewrite ?omap_app, ?List.filter_app, ?length_app; cbn.
  all: rewrite ?app_nil_r; repeat split; lia.
Qed.

Lemma openLoginPage_ready (s : state) :
  (exists impl, logger s = Some impl) ->
  exists s',
    openLoginPage s = (Done tt, s')
    /\ graphCredentialStorage s' = graphCredentialStorage s
    /\ posted_refresh_tokens s' = posted_refresh_tokens s
    /\ posted_codes s' = posted_codes s
    /\ supervisor_starts s' = supervisor_starts s
    /\ browser_launches s'
       = (browser_launches s + if Browser (credentialsConfig s) then 1 else 0)%nat.
Proof.
  intros [impl Hlog].
  destruct s as [oa [br pe sp] st rn lg fl cf wf clf ef ck tr].
  cbn in Hlog. subst lg.
  unfold posted_refresh_tokens, posted_codes, supervisor_starts, browser_launches.
  destruct br; destruct ef.
  all: eexists; split; [go_compute; reflexivity |].
  all: cbn [graphCredentialStorage trace credentialsConfig Browser].
  all: rewrite ?omap_app, ?List.filter_app, ?length_app; cbn.
  all: rewrite ?app_nil_r; repeat split; lia.
Qed.

(** The state in which [Run] tests the loaded refresh token: configured,
    loaded, the logger set and the five handlers registered. *)
Lemma Run_prefix (oauth : OauthConfig) (appConfig : CredentialsConfig)
    (log : option Logger) (resp : post_result) (s : state) :
  let s0 := set_credentialsConfig appConfig (set_oauthConfig oauth s) in
  let s1 := exec loadExistingCredentials s0 in
  let st := emit (EvHandleFunc "/callback")
              (emit (EvHandleFunc "/error")
                (emit (EvHandleFunc "/success")
                  (emit (EvHandleFunc "/login")
                    (emit (EvHandleFunc "/home") (set_logger log s1))))) in
  result loadExistingCredentials s0 = Done tt ->
  Run oauth appConfig log resp s
  = (returned <-
       (if nonempty (RefreshToken (credentials (graphCredentialStorage s1))) then
          err <- refreshTokenHandler resp ;;
          match err with
          | None => go_refreshTokenManager ;; ret (Some nil_ptr)
          | Some _ => ret None
          end
        else ret None) ;;
     match returned with
     | Some p => ret p
     | None => openLoginPage ;; ret addr_graphCredentialStorage
     end) st.
Proof.
  intros s0 s1 st Hload. apply run_result in Hload.
  unfold Run.
  erewrite bind_done by reflexivity.
  erewrite bind_done by reflexivity.
  erewrite bind_done by exact Hload.
  do 7 (erewrite bind_done by reflexivity).
  reflexivity.
Qed.

Lemma Run_prefix_counts (log : option Logger) (s1 : state) :
  let st := emit (EvHandleFunc "/callback")
              (emit (EvHandleFunc "/error")
                (emit (EvHandleFunc "/success")
                  (emit (EvHandleFunc "/login")
                    (emit (EvHandleFunc "/home") (set_logger log s1))))) in
  posted_refresh_tokens st = posted_refresh_tokens s1
  /\ posted_codes st = posted_codes s1
  /\ supervisor_starts st = supervisor_starts s1
  /\ browser_launches st = browser_launches s1.
Proof.
  cbv zeta.
  unfold posted_refresh_tokens, posted_codes, supervisor_starts, browser_launches.
  cbn [trace emit set_logger].
  rewrite ?omap_app, ?List.filter_app, ?length_app; cbn.
  rewrite ?app_nil_r. repeat split; lia.
Qed.

(** X9.  A start-up whose load returns without a refresh token (a first
    login, or persistence off) takes the interactive path: [Run] sends no
    request and starts no refresh loop, sends the browser to the login
    page once if configured, and returns the address of the store, which
    reports no session; the caller's [fetchEventsFromOutlook] on that
    pointer returns without querying the calendar. *)
Theorem run_without_refresh_token
    (oauth : OauthConfig) (appConfig : CredentialsConfig) (impl : Logger)
    (resp : post_result) (s : state) :
  let s0 := set_credentialsConfig appConfig (set_oauthConfig oauth s) in
  let s1 := exec loadExistingCredentials s0 in
  result loadExistingCredentials s0 = Done tt ->
  RefreshToken (credentials (graphCredentialStorage s1)) = "" ->
  let run := Run oauth appConfig (Some impl) resp in
  result run s = Done addr_graphCredentialStorage
  /\ posted_refresh_tokens (exec run s) = posted_refresh_tokens s1
  /\ supervisor_starts (exec run s) = supervisor_starts s1
  /\ browser_launches (exec run s)
     = (browser_launches s1 + if Browser appConfig then 1 else 0)%nat
  /\ authenticated (graphCredentialStorage (exec run s)) = false
  /\ result (graphCredentials <- run ;; fetchEventsFromOutlook graphCredentials) s
     = Done None.
Proof.
  intros s0 s1 Hload Hrt run.
  pose proof (loadExistingCredentials_store s0) as (Hau & Hlock & _).
  pose proof (Run_prefix oauth appConfig (Some impl) resp s Hload) as Hrun.
  cbv zeta in Hrun. fold s0 s1 in Hrun, Hau, Hlock.
  rewrite Hrt in Hrun. change (nonempty "") with false in Hrun. cbv iota in Hrun.
  set (st := emit (EvHandleFunc "/callback") _) in Hrun.
  destruct (Run_prefix_counts (Some impl) s1) as (Hp & _ & Hs & Hb). fold st in Hp, Hs, Hb.
  destruct (openLoginPage_ready st) as (s2 & Hopen & Hst & Hp2 & _ & Hs2 & Hb2).
  { exists impl. reflexivity. }
  assert (Hrun' : run s = (Done addr_graphCredentialStorage, s2)).
  { subst run. rewrite Hrun. unfold bind at 1. cbn [ret].
    unfold bind. rewrite Hopen. reflexivity. }
  assert (Hcfg : credentialsConfig st = appConfig).
  { subst st. cbn [credentialsConfig emit set_logger]. subst s1.
    destruct (loadExistingCredentials_config s0) as (_ & ->). reflexivity. }
  unfold result, exec. rewrite Hrun'. cbn [fst snd].
  rewrite Hcfg in Hb2.
  assert (Hst2 : graphCredentialStorage s2 = graphCredentialStorage s1).
  { rewrite Hst. reflexivity. }
  repeat split; try congruence.
  unfold bind. rewrite Hrun'. unfold fetchEventsFromOutlook, bind.
  rewrite GetAccessToken_ready by congruence. cbn [fst snd].
  rewrite Hst2, Hau. reflexivity.
Qed.

(** X10.  A start-up whose load returns with a refresh token sends
    exactly one refresh, carrying that token, whatever the answer.  When
    the answer is a 200 that does not decode, [Run] starts no refresh
    loop and returns the address of the store, which is left cleared; the
    browser is sent to the login page twice when configured, once by the
    refresh and once by [Run]. *)
Theorem run_with_refresh_token
    (oauth : OauthConfig) (appConfig : CredentialsConfig) (impl : Logger)
    (resp : post_result) (s : state) :
  let s0 := set_credentialsConfig appConfig (set_oauthConfig oauth s) in
  let s1 := exec loadExistingCredentials s0 in
  result loadExistingCredentials s0 = Done tt ->
  RefreshToken (credentials (graphCredentialStorage s1)) <> "" ->
  let run := Run oauth appConfig (Some impl) resp in
  posted_refresh_tokens (exec run s)
  = (posted_refresh_tokens s1 ++ [RefreshToken (credentials (graphCredentialStorage s1))])%list
  /\ (resp = Response 200 Malformed ->
        result run s = Done addr_graphCredentialStorage
        /\ supervisor_starts (exec run s) = supervisor_starts s1
        /\ store_cleared (graphCredentialStorage (exec run s))
        /\ browser_launches (exec run s)
           = (browser_launches s1 + if Browser appConfig then 2 else 0)%nat).
Proof.
  intros s0 s1 Hload Hrt run.
  pose proof (loadExistingCredentials_store s0) as (_ & Hlock & _).
  pose proof (Run_prefix oauth appConfig (Some impl) resp s Hload) as Hrun.
  cbv zeta in Hrun. fold s0 s1 in Hrun, Hlock.
  rewrite (nonempty_true _ Hrt) in Hrun.
  set (st := emit (EvHandleFunc "/callback") _) in Hrun.
  destruct (Run_prefix_counts (Some impl) s1) as (Hp & _ & Hs & Hb). fold st in Hp, Hs, Hb.
  assert (Hready : ready st).
  { split; [exists impl; reflexivity | exact Hlock]. }
  assert (Hcfg : credentialsConfig st = appConfig).
  { subst st. cbn [credentialsConfig emit set_logger]. subst s1.
    destruct (loadExistingCredentials_config s0) as (_ & ->). reflexivity. }
  destruct (refreshTokenHandler_ready resp st Hready) as (s2 & Hh & Hst2 & Hw & _).
  pose proof (refreshTokenHandler_trace resp st Hready) as (Hp2 & _ & Hs2 & Hb2).
  unfold exec in Hp2, Hs2, Hb2. rewrite Hh in Hp2, Hs2, Hb2. cbn [snd] in Hp2, Hs2, Hb2.
  assert (Hlog2 : exists impl0, logger s2 = Some impl0).
  { destruct Hw as (_ & _ & _ & -> & _). exists impl. reflexivity. }
  assert (Hcfg2 : credentialsConfig s2 = appConfig).
  { destruct Hw as (_ & -> & _). exact Hcfg. }
  assert (Hst1 : graphCredentialStorage st = graphCredentialStorage s1) by reflexivity.
  split.
  - subst run. unfold exec. rewrite Hrun.
    unfold bind at 1. unfold bind at 1. rewrite Hh.
    destruct (refresh_error resp) as [msg|].
    + cbn [ret]. destruct (openLoginPage_ready s2 Hlog2) as (s3 & Hopen & _ & Hp3 & _).
      unfold bind, ret. rewrite Hopen. cbv beta iota delta [snd].
      rewrite Hp3, Hp2, Hp, Hst1. reflexivity.
    + unfold bind, go_refreshTokenManager, do_event, modify, ret. cbn [snd].
      unfold posted_refresh_tokens in *. cbn [trace emit].
      rewrite omap_app. cbn. rewrite app_nil_r, Hp2, Hp, Hst1. reflexivity.
  - intros ->. cbn [refresh_error Z.eqb Pos.eqb] in Hh.
    destruct (openLoginPage_ready s2 Hlog2) as (s3 & Hopen & Hst3 & _ & _ & Hs3 & Hb3).
    assert (Hrun' : run s = (Done addr_graphCredentialStorage, s3)).
    { subst run. rewrite Hrun. unfold bind at 1. unfold bind at 1. rewrite Hh.
      cbn [ret]. unfold bind. rewrite Hopen. reflexivity. }
    unfold result, exec. rewrite Hrun'. cbn [fst snd].
    split; [reflexivity |]. split; [congruence |]. split.
    + rewrite Hst3, Hst2. split; reflexivity.
    + rewrite Hb3, Hcfg2, Hb2, Hcfg, Hb. cbn. destruct (Browser appConfig); lia.
Qed.

(** X11.  Every refresh sends the refresh token the store holds at that
    moment.  So of two refreshes in a row the second sends the token the
    first one received when the first succeeded (a rotated refresh token
    is honoured), the same token again when the first failed in
    transport, and the empty token when the first cleared the store. *)
Theorem refresh_sends_stored_token (first second : post_result) (s : state) :
  ready s ->
  let s1 := exec (refreshTokenHandler first) s in
  let s2 := exec (refreshTokenHandler second) s1 in
  posted_refresh_tokens s2
  = (posted_refresh_tokens s
     ++ [RefreshToken (credentials (graphCredentialStorage s));
         RefreshToken (credentials
           (refreshed first (clock s) (graphCredentialStorage s)))])%list.
Proof.
  intros Hready s1 s2.
  destruct (refreshTokenHandler_ready first s Hready) as (s1' & Hh & Hst & Hw & _).
  pose proof (refreshTokenHandler_trace first s Hready) as (Hp & _).
  assert (Hs1 : s1 = s1') by (subst s1; unfold exec; rewrite Hh; reflexivity).
  fold s1 in Hp.
  assert (Hready1 : ready s1).
  { rewrite Hs1. split.
    - destruct Hready as [[impl Hlog] _]. exists impl.
      destruct Hw as (_ & _ & _ & -> & _). exact Hlog.
    - rewrite Hst. destruct Hready as [_ Hlock].
      destruct first as [|st [|g]]; cbn; try assumption;
        destruct (Z.eqb st 200); assumption. }
  pose proof (refreshTokenHandler_trace second s1 Hready1) as (Hp2 & _).
  fold s2 in Hp2. rewrite Hp2, Hp, <- app_assoc. cbn [app].
  rewrite Hs1, Hst. reflexivity.
Qed.

End RunPaths.

(** A start-up with persistence off. *)
Lemma run_without_refresh_token_witness :
  result (Run fixture_oauth (mkCredentialsConfig true false "") (Some logrus) TransportError)
         (boot 0)
  = Done addr_graphCredentialStorage.
Proof.
  refine (proj1 (run_without_refresh_token fixture_oauth (mkCredentialsConfig true false "")
                   logrus TransportError (boot 0) _ _)).
  - vm_compute. reflexivity.
  - vm_compute. reflexivity.
Defined.

(** A start-up that finds refresh token [rt-123] and is answered with an
    undecodable 200. *)
Lemma run_with_refresh_token_witness :
  posted_refresh_tokens
    (exec (Run fixture_oauth fixture_config (Some logrus) (Response 200 Malformed))
          (boot_with_file 0))
  = ["rt-123"].
Proof.
  refine (proj1 (run_with_refresh_token fixture_oauth fixture_config logrus
                   (Response 200 Malformed) (boot_with_file 0) _ _)).
  - vm_compute. reflexivity.
  - vm_compute. discriminate.
Defined.

(** A session holding [rt-456] whose refresh is answered with a
    credential carrying [rt-789]: the next refresh sends [rt-789]. *)
Lemma refresh_sends_stored_token_witness :
  posted_refresh_tokens
    (exec (refreshTokenHandler TransportError)
       (exec (refreshTokenHandler (Response 200 (Json token_short))) (in_session 0)))
  = ["rt-456"; "rt-789"].
Proof.
  exact (refresh_sends_stored_token (Response 200 (Json token_short)) TransportError
           (in_session 0) (conj (ex_intro _ logrus eq_refl) eq_refl)).
Defined.

(** The first start of the program with persistence on. *)
Lemma first_start_needs_readable_file_witness :
  result (Run fixture_oauth fixture_config (Some logrus) TransportError) (boot 0)
  = Panic "nil pointer dereference".
Proof.
  exact (proj1 (proj1 (first_start_needs_readable_file
                         fixture_oauth fixture_config (Some logrus) TransportError (boot 0)
                         eq_refl eq_refl) eq_refl)).
Defined.

(** ** Starting the refresh loop twice, and its first turn (auth.go) *)

Section LoopStart.
Context `{External}.

Lemma bind_Done_inv {A B} (m : M A) (k : A -> M B) (s s2 : state) (b : B) :
  bind m k s = (Done b, s2) ->
  exists a s1, m s = (Done a, s1) /\ k a s1 = (Done b, s2).
Proof.
  unfold bind. destruct (m s) as [[a|why|c|] s1]; intros Heq; try discriminate.
  exists a, s1. split; [reflexivity | exact Heq].
Qed.

Lemma refreshTokenHandler_flag (resp : post_result) (s : state) :
  refreshTokenManagerRunning (exec (refreshTokenHandler resp) s)
  = refreshTokenManagerRunning s.
Proof.
  destruct s as [oa [br pe sp] [lk cr ex au] rn lg fl cf wf clf ef ck tr].
  unfold exec, refreshTokenHandler. destruct lk, resp as [|st [|g]]; go_compute.
  all: repeat (break_match; go_compute); reflexivity.
Qed.

Lemma persistCredentials_flag (receiver : ptr) (path : string) (s : state) :
  refreshTokenManagerRunning (exec (persistCredentials receiver path) s)
  = refreshTokenManagerRunning s.
Proof.
  destruct s as [oa [br pe sp] [lk cr ex au] rn lg fl cf wf clf ef ck tr].
  unfold exec, persistCredentials. destruct receiver, lk; go_compute.
  all: repeat (break_match; go_compute); reflexivity.
Qed.

Lemma exec_of {A} (m : M A) (s s' : state) (o : outcome A) :
  m s = (o, s') -> s' = exec m s.
Proof. intros Heq. unfold exec. rewrite Heq. reflexivity. Qed.

(** The running flag at the end of the [for] loop. *)
Lemma loop_flag (receiver : ptr) (answers : list post_result) (s s' : state)
    (status : manager_status) :
  refreshTokenManager_loop receiver answers s = (Done status, s') ->
  match status with
  | Running => refreshTokenManagerRunning s' = refreshTokenManagerRunning s
  | Stopped => refreshTokenManagerRunning s' = false
  | Refused => False
  end.
Proof.
  revert s. induction answers as [|resp later IH]; intros s Hrun.
  - cbn in Hrun. injection Hrun as <- <-. reflexivity.
  - cbn [refreshTokenManager_loop] in Hrun.
    apply bind_Done_inv in Hrun as (s0 & sa & Hget & Hrun).
    injection Hget as <- <-.
    apply bind_Done_inv in Hrun as (u1 & s1 & Hpersist & Hrun).
    assert (Hf1 : refreshTokenManagerRunning s1 = refreshTokenManagerRunning s).
    { destruct (Persist (credentialsConfig s)).
      - rewrite (exec_of _ _ _ _ Hpersist). apply persistCredentials_flag.
      - injection Hpersist as _ <-. reflexivity. }
    apply bind_Done_inv in Hrun as (u2 & s2 & Hlock & Hrun).
    apply bind_Done_inv in Hrun as (c & s3 & Hload & Hrun).
    apply bind_Done_inv in Hrun as (u4 & s4 & Hunlock & Hrun).
    apply bind_Done_inv in Hrun as (u5 & s5 & Hsleep & Hrun).
    apply bind_Done_inv in Hrun as (u6 & s6 & Hdebug & Hrun).
    apply bind_Done_inv in Hrun as (err & s7 & Hhandler & Hrun).
    assert (Hf6 : refreshTokenManagerRunning s6 = refreshTokenManagerRunning s1).
    { clear - Hlock Hload Hunlock Hsleep Hdebug.
      destruct receiver; [discriminate Hlock |].
      destruct s1 as [oa cc [lk cr ex au] rn lg fl cf wf clf ef ck tr].
      destruct lk; [discriminate Hlock |].
      revert Hlock Hload Hunlock Hsleep Hdebug. go_step.
      intros Hlock. injection Hlock as _ <-.
      go_step. intros Hload. injection Hload as _ <-.
      go_step. intros Hunlock. injection Hunlock as _ <-.
      go_step. intros Hsleep. injection Hsleep as _ <-.
      go_step. destruct lg; [| discriminate].
      intros Hdebug. injection Hdebug as _ <-. reflexivity. }
    assert (Hf7 : refreshTokenManagerRunning s7 = refreshTokenManagerRunning s6).
    { rewrite (exec_of _ _ _ _ Hhandler). apply refreshTokenHandler_flag. }
    destruct err as [msg|].
    + unfold bind, modify, ret in Hrun. injection Hrun as <- <-. reflexivity.
    + specialize (IH s7 Hrun). destruct status; [exact IH | exact IH | congruence].
Qed.

(** X12.  Starting the refresh loop is idempotent.  While a loop started
    earlier is still running, a second start (the callback makes one at
    every login) returns at once and changes nothing: no second loop, no
    write, no request.  Once a loop has stopped, the flag is down and the
    next start runs a loop again. *)
Theorem second_start_is_refused
    (receiver receiver' : ptr) (answers answers' : list post_result) (s : state) :
  refreshTokenManagerRunning s = false ->
  let s' := exec (refreshTokenManager receiver answers) s in
  (result (refreshTokenManager receiver answers) s = Done Running ->
     refreshTokenManager receiver' answers' s' = (Done Refused, s'))
  /\ (result (refreshTokenManager receiver answers) s = Done Stopped ->
        refreshTokenManager receiver' answers' s'
        = refreshTokenManager_loop receiver' answers' (set_running true s')).
Proof.
  intros Hflag s'.
  assert (Hstart : refreshTokenManager receiver answers s
                   = refreshTokenManager_loop receiver answers (set_running true s)).
  { unfold refreshTokenManager. cbv beta iota delta [bind get]. rewrite Hflag. reflexivity. }
  assert (Hnext : forall b,
             refreshTokenManagerRunning s' = b ->
             refreshTokenManager receiver' answers' s'
             = if b then (Done Refused, s')
               else refreshTokenManager_loop receiver' answers' (set_running true s')).
  { intros b <-. unfold refreshTokenManager. cbv beta iota delta [bind get].
    destruct (refreshTokenManagerRunning s'); reflexivity. }
  split; intros Hres; apply run_result in Hres; fold s' in Hres;
    rewrite Hstart in Hres; apply loop_flag in Hres.
  - apply (Hnext true). rewrite Hres. reflexivity.
  - apply (Hnext false). exact Hres.
Qed.

End LoopStart.

(** A loop observed over one refresh that fails in transport is still
    running; the start the next callback makes is refused. *)
Lemma second_start_is_refused_witness :
  result (refreshTokenManager addr_graphCredentialStorage [Response 200 (Json token_tok1)])
         (exec (refreshTokenManager addr_graphCredentialStorage [TransportError])
               (in_session 0))
  = Done Refused.
Proof.
  unfold result.
  rewrite (proj1 (second_start_is_refused addr_graphCredentialStorage
                    addr_graphCredentialStorage [TransportError]
                    [Response 200 (Json token_tok1)] (in_session 0) eq_refl)).
  - reflexivity.
  - vm_compute. reflexivity.
Defined.

(** ** From a login to the first refresh (auth.go) *)

Section LoginToRefresh.
Context `{External}.

Lemma nonempty_false (path : string) : nonempty path = false -> path = "".
Proof.
  unfold nonempty. intros Hn. apply negb_false_iff in Hn.
  apply String.eqb_eq. exact Hn.
Qed.

Lemma persistCredentials_steady_files (path : string) (s : state) :
  steady s ->
  exists s',
    persistCredentials addr_graphCredentialStorage path s = (Done tt, s')
    /\ persisted_frame s s'
    /\ posted_refresh_tokens s' = posted_refresh_tokens s
    /\ (path <> "" ->
        forall doc,
          toml_Encode (credentials (graphCredentialStorage s)) = (doc, None) ->
          files s' !! filepath_Join path "credentials.toml" = Some doc).
Proof.
  intros [[[impl Hlog] Hlock] (Hcf & Hwf & Hclf)].
  destruct s as [oa [br pe sp] [lk cr ex au] rn lg fl cf wf clf ef ck tr].
  cbn in Hlog, Hlock, Hcf, Hwf, Hclf. subst lk lg cf wf clf.
  unfold persistCredentials. go_compute.
  repeat (break_match; go_compute).
  all: try match goal with
           | Hin : _ ∈ ∅ |- _ => exfalso; exact (not_elem_of_empty _ Hin)
           end.
  all: eexists; split; [reflexivity |].
  all: split; [repeat split; unfold refresh_attempts; cbn [trace];
               rewrite ?List.filter_app, ?length_app; cbn; lia |].
  all: split; [unfold posted_refresh_tokens; cbn [trace];
               rewrite ?omap_app; cbn; rewrite ?app_nil_r; reflexivity |].
  all: intros Hpath doc Hdoc; cbn [files].
  all: try (exfalso; apply Hpath; apply nonempty_false; assumption).
  all: try congruence.
  all: rewrite lookup_insert_eq; congruence.
Qed.

(** One turn of the loop from a steady state, in full: how the loop
    goes on, and where the store, the clock, the files and the trace
    stand when the turn's refresh has returned. *)
Lemma loop_turn_full (resp : post_result) (later : list post_result) (s : state) :
  steady s ->
  exists sp s2,
    (if Persist (credentialsConfig s)
     then persistCredentials addr_graphCredentialStorage (StoragePath (credentialsConfig s))
     else ret tt) s = (Done tt, sp)
    /\ refreshTokenManager_loop addr_graphCredentialStorage (resp :: later) s
       = match refresh_error resp with
         | Some _ => (Done Stopped, set_running false s2)
         | None => refreshTokenManager_loop addr_graphCredentialStorage later s2
         end
    /\ steady s2
    /\ credentialsConfig s2 = credentialsConfig s
    /\ graphCredentialStorage s2
       = refreshed resp (clock s2) (graphCredentialStorage s)
    /\ clock s2 = clock s + Z.max (timeUntilRefresh (graphCredentialStorage s)) 0
    /\ files s2 = files sp
    /\ posted_refresh_tokens s2
       = (posted_refresh_tokens s
          ++ [RefreshToken (credentials (graphCredentialStorage s))])%list.
Proof.
  intros Hsteady.
  assert (Hp : exists sp,
             (if Persist (credentialsConfig s)
              then persistCredentials addr_graphCredentialStorage
                     (StoragePath (credentialsConfig s))
              else ret tt) s = (Done tt, sp)
             /\ persisted_frame s sp
             /\ posted_refresh_tokens sp = posted_refresh_tokens s).
  { destruct (Persist (credentialsConfig s)).
    - destruct (persistCredentials_steady_files (StoragePath (credentialsConfig s)) s Hsteady)
        as (sp & Hrun & Hframe & Hposted & _).
      exists sp. split; [exact Hrun | split; [exact Hframe | exact Hposted]].
    - exists s. split; [reflexivity |]. split; [repeat split | reflexivity]. }
  destruct Hp as (sp & Hp & Hframe & Hposted).
  pose proof (steady_persisted s sp Hframe Hsteady) as Hsteady1.
  exists sp.
  cbn [refreshTokenManager_loop].
  unfold bind at 1. cbv beta iota delta [get].
  unfold bind at 1. rewrite Hp.
  destruct Hframe as (_ & Hcc & Hst & _ & _ & _ & _ & _ & _ & Hck & _).
  rewrite <- Hst, <- Hck, <- Hposted, <- Hcc. clear Hst Hck Hposted Hcc.
  destruct Hsteady1 as [[[impl Hlog] Hlock] (Hcf & Hwf & Hclf)].
  destruct sp as [oa cc [lk cr ex au] rn lg fl cf wf clf ef ck tr].
  cbn in Hlog, Hlock, Hcf, Hwf, Hclf. subst lk lg cf wf clf.
  go_step.
  match goal with
  | |- context [refreshTokenHandler resp ?st] =>
      assert (Hready : ready st) by (split; [exists impl; reflexivity | reflexivity]);
      destruct (refreshTokenHandler_ready resp st Hready) as (s2 & Heq & Hst2 & Hw & _);
      pose proof (refreshTokenHandler_trace resp st Hready) as (Htr & _);
      unfold exec in Htr; rewrite Heq in Htr |- *; cbn [snd] in Htr
  end.
  exists s2. split; [reflexivity |].
  destruct Hw as (_ & Hcc2 & _ & Hlg2 & Hfiles & Hcf & Hwf & Hclf & _ & Hclock).
  cbn in Hfiles, Hclock, Hcc2, Hlg2, Hcf, Hwf, Hclf, Hst2.
  assert (Hlock2 : lock (graphCredentialStorage s2) = false).
  { rewrite Hst2. destruct resp as [|st [|g]]; cbn; try reflexivity;
      destruct (Z.eqb st 200); reflexivity. }
  split; [| split; [| split; [| split; [| split; [| split]]]]].
  - go_step. destruct (refresh_error resp); reflexivity.
  - repeat split; try assumption. exists impl. exact Hlg2.
  - exact Hcc2.
  - change (graphCredentialStorage s2
            = refreshed resp (clock s2) (mkCredentialStorage false cr ex au)).
    rewrite Hclock. exact Hst2.
  - exact Hclock.
  - exact Hfiles.
  - rewrite Htr. unfold posted_refresh_tokens. cbn [trace].
    rewrite ?omap_app. cbn. rewrite ?app_nil_r. reflexivity.
Qed.

(** What a callback sends: one request carrying the code of the query,
    and no refresh token, whatever the state. *)
Lemma callbackHandler_posts (code : string) (resp : post_result) (s : state) :
  posted_codes (exec (callbackHandler code resp) s) = (posted_codes s ++ [code])%list
  /\ posted_refresh_tokens (exec (callbackHandler code resp) s) = posted_refresh_tokens s.
Proof.
  destruct s as [oa [br pe sp] [lk cr ex au] rn lg fl cf wf clf ef ck tr].
  unfold posted_codes, posted_refresh_tokens, exec, callbackHandler.
  destruct lk, lg as [impl|], resp as [|st [|g]]; go_compute.
  all: rewrite ?omap_app; cbn; rewrite ?app_nil_r; split; reflexivity.
Qed.

Lemma persistCredentials_timeline (receiver : ptr) (path : string) (s : state) :
  timeline (exec (persistCredentials receiver path) s) = timeline s.
Proof.
  destruct s as [oa [br pe sp] [lk cr ex au] rn lg fl cf wf clf ef ck tr].
  unfold timeline, exec, persistCredentials. destruct receiver, lk; go_compute.
  all: repeat (break_match; go_compute).
  all: cbn [trace]; rewrite ?omap_app; cbn; rewrite ?app_nil_r; reflexivity.
Qed.

Lemma callbackHandler_timeline (code : string) (resp : post_result) (s : state) :
  timeline (exec (callbackHandler code resp) s) = timeline s.
Proof.
  destruct s as [oa [br pe sp] [lk cr ex au] rn lg fl cf wf clf ef ck tr].
  unfold timeline, exec, callbackHandler.
  destruct lk, lg as [impl|], resp as [|st [|g]]; go_compute.
  all: rewrite ?omap_app; cbn; rewrite ?app_nil_r; reflexivity.
Qed.

Lemma refreshTokenHandler_timeline (resp : post_result) (s : state) :
  ready s ->
  timeline (exec (refreshTokenHandler resp) s)
  = (timeline s ++ [inr (RefreshToken (credentials (graphCredentialStorage s)))])%list.
Proof.
  intros [[impl Hlog] Hlock].
  destruct s as [oa [br pe sp] [lk cr ex au] rn lg fl cf wf clf ef ck tr].
  cbn in Hlog, Hlock. subst lk lg.
  unfold timeline.
  destruct resp as [|st [|g]]; [| destruct (Z.eqb st 200) eqn:Est ..].
  all: destruct br; destruct ef.
  all: unfold exec, refreshTokenHandler; rewrite ?Est; go_compute.
  all: rewrite ?omap_app; cbn; rewrite ?app_nil_r; reflexivity.
Qed.

(** One turn of the loop from a steady state, as the outside sees it:
    one sleep of the computed duration, then one refresh carrying the
    stored refresh token. *)
Lemma loop_turn_timeline (resp : post_result) (s : state) :
  steady s ->
  timeline (exec (refreshTokenManager_loop addr_graphCredentialStorage [resp]) s)
  = (timeline s
     ++ [inl (timeUntilRefresh (graphCredentialStorage s));
         inr (RefreshToken (credentials (graphCredentialStorage s)))])%list.
Proof.
  intros Hsteady.
  assert (Hp : exists sp,
             (if Persist (credentialsConfig s)
              then persistCredentials addr_graphCredentialStorage
                     (StoragePath (credentialsConfig s))
              else ret tt) s = (Done tt, sp)
             /\ persisted_frame s sp
             /\ timeline sp = timeline s).
  { destruct (Persist (credentialsConfig s)).
    - destruct (persistCredentials_steady_files (StoragePath (credentialsConfig s)) s Hsteady)
        as (sp & Hrun & Hframe & _).
      exists sp. split; [exact Hrun | split; [exact Hframe |]].
      rewrite (exec_of _ _ _ _ Hrun). apply persistCredentials_timeline.
    - exists s. split; [reflexivity |]. split; [repeat split | reflexivity]. }
  destruct Hp as (sp & Hp & Hframe & Htl).
  pose proof (steady_persisted s sp Hframe Hsteady) as Hsteady1.
  unfold exec. cbn [refreshTokenManager_loop].
  unfold bind at 1. cbv beta iota delta [get].
  unfold bind at 1. rewrite Hp.
  destruct Hframe as (_ & _ & Hst & _).
  rewrite <- Hst, <- Htl. clear Hst Htl Hp.
  destruct Hsteady1 as [[[impl Hlog] Hlock] (Hcf & Hwf & Hclf)].
  destruct sp as [oa cc [lk cr ex au] rn lg fl cf wf clf ef ck tr].
  cbn in Hlog, Hlock, Hcf, Hwf, Hclf. subst lk lg cf wf clf.
  go_step.
  match goal with
  | |- context [refreshTokenHandler resp ?st] =>
      assert (Hready : ready st) by (split; [exists impl; reflexivity | reflexivity]);
      destruct (refreshTokenHandler_ready resp st Hready) as (s2 & Heq & _);
      pose proof (refreshTokenHandler_timeline resp st Hready) as Htr;
      unfold exec in Htr; rewrite Heq in Htr |- *; cbn [snd] in Htr
  end.
  go_step.
  assert (Hend : forall o : error,
             timeline (snd (match o with
                            | Some _ => (Done Stopped, set_running false s2)
                            | None => (Done Running, s2)
                            end)) = timeline s2).
  { intros [msg|]; reflexivity. }
  etransitivity; [| etransitivity; [exact Htr |]].
  - destruct (refresh_error resp); reflexivity.
  - unfold timeline. cbn [trace graphCredentialStorage credentials].
    rewrite ?omap_app. cbn. rewrite ?app_nil_r, <- app_assoc. reflexivity.
Qed.

(** X13.  From a login to the first refresh.  After a callback that
    stores a token whose lifetime is at least the 60 seconds of margin,
    the refresh loop it starts saves that token when persistence is on,
    asks for one sleep of the lifetime less 60 seconds, and after it
    sends its first refresh, carrying the refresh token just received. *)
Theorem login_then_first_turn
    (code : string) (StatusCode : Z) (graphAuth : GraphAuthentication)
    (resp : post_result) (s : state) :
  steady s ->
  refreshTokenManagerRunning s = false ->
  60 <= ExpiresIn graphAuth < 65536 ->
  let s1 := exec (callbackHandler code (Response StatusCode (Json graphAuth))) s in
  let s2 := exec (refreshTokenManager addr_graphCredentialStorage [resp]) s1 in
  timeline s2
  = (timeline s
     ++ [inl ((ExpiresIn graphAuth - 60) * time_Second);
         inr (RefreshToken graphAuth)])%list
  /\ (Persist (credentialsConfig s) = true ->
      StoragePath (credentialsConfig s) <> "" ->
      forall doc,
        toml_Encode graphAuth = (doc, None) ->
        files s2 !! filepath_Join (StoragePath (credentialsConfig s)) "credentials.toml"
        = Some doc).
Proof.
  intros Hsteady Hflag Hrange s1 s2.
  destruct Hsteady as [Hready Hdisk].
  destruct (callbackHandler_ready code (Response StatusCode (Json graphAuth)) s Hready)
    as (s1' & Hcb & Hst1 & Hw1 & _).
  assert (Hs1 : s1 = s1') by (subst s1; unfold exec; rewrite Hcb; reflexivity).
  pose proof (callbackHandler_timeline code (Response StatusCode (Json graphAuth)) s)
    as Htl1. fold s1 in Htl1.
  cbn [called_back] in Hst1. rewrite <- Hs1 in Hst1, Hw1.
  destruct Hw1 as (_ & Hcfg & Hrn & Hlg & Hfl & Hcf & Hwf & Hclf & _ & Hck).
  assert (Hsteady1 : steady (set_running true s1)).
  { destruct Hready as [[impl Hlog] Hlock]. destruct Hdisk as (H1 & H2 & H3).
    repeat split; cbn [set_running logger graphCredentialStorage create_fails
                       write_fails close_fails]; try congruence.
    - exists impl. congruence.
    - rewrite Hst1. exact Hlock. }
  assert (Hstart : exec (refreshTokenManager addr_graphCredentialStorage [resp]) s1
                   = exec (refreshTokenManager_loop addr_graphCredentialStorage [resp])
                       (set_running true s1)).
  { unfold exec, refreshTokenManager. cbv beta iota delta [bind get].
    rewrite Hrn, Hflag. reflexivity. }
  split.
  - subst s2. rewrite Hstart, (loop_turn_timeline resp _ Hsteady1).
    change (timeline (set_running true s1)) with (timeline s1).
    cbn [set_running graphCredentialStorage].
    rewrite Htl1, Hst1.
    rewrite timeUntilRefresh_above_margin by exact Hrange. reflexivity.
  - intros Hpe Hpath doc Henc.
    destruct (loop_turn_full resp [] (set_running true s1) Hsteady1)
      as (sp & s3 & Hp & Hloop & _ & _ & _ & _ & Hfiles & _).
    assert (Hs2 : files s2 = files s3).
    { subst s2. rewrite Hstart. unfold exec. rewrite Hloop.
      destruct (refresh_error resp); reflexivity. }
    rewrite Hs2, Hfiles.
    cbn [set_running credentialsConfig] in Hp. rewrite Hcfg, Hpe in Hp.
    destruct (persistCredentials_steady_files (StoragePath (credentialsConfig s))
                (set_running true s1) Hsteady1) as (sp' & Hp' & _ & _ & Hfile).
    rewrite Hp in Hp'. injection Hp' as <-.
    apply Hfile; [exact Hpath |].
    cbn [set_running graphCredentialStorage]. rewrite Hst1. exact Henc.
Qed.

(** X14.  A refresh the provider answers with a status other than 200
    does not stop the loop.  Its next turn finds the cleared store: it
    overwrites the persisted credential with the empty one, sleeps 65476
    seconds (the [uint16] difference of 0 and 60), and then sends a
    refresh with an empty refresh token. *)
Theorem loop_after_rejected_refresh
    (StatusCode : Z) (Body : body) (second : post_result) (s : state) :
  steady s ->
  StatusCode <> 200 ->
  let s2 := exec (refreshTokenManager_loop addr_graphCredentialStorage
                    [Response StatusCode Body; second]) s in
  posted_refresh_tokens s2
  = (posted_refresh_tokens s
     ++ [RefreshToken (credentials (graphCredentialStorage s)); ""])%list
  /\ clock s2
     = clock s + Z.max (timeUntilRefresh (graphCredentialStorage s)) 0
       + 65476 * time_Second
  /\ (Persist (credentialsConfig s) = true ->
      StoragePath (credentialsConfig s) <> "" ->
      forall doc,
        toml_Encode zero_GraphAuthentication = (doc, None) ->
        files s2 !! filepath_Join (StoragePath (credentialsConfig s)) "credentials.toml"
        = Some doc).
Proof.
  intros Hsteady Hst s2.
  destruct (loop_turn_full (Response StatusCode Body) [second] s Hsteady)
    as (sp & s1 & _ & Hloop & Hsteady1 & Hcfg1 & Hst1 & Hck1 & _ & Hposted1).
  assert (Hne : Z.eqb StatusCode 200 = false) by (apply Z.eqb_neq; exact Hst).
  assert (Herr : refresh_error (Response StatusCode Body) = None).
  { cbn. rewrite Hne. destruct Body; reflexivity. }
  rewrite Herr in Hloop.
  assert (Hcleared : graphCredentialStorage s1 = cleared (graphCredentialStorage s)).
  { rewrite Hst1. cbn. rewrite Hne. reflexivity. }
  destruct (loop_turn_full second [] s1 Hsteady1)
    as (sp2 & s3 & Hp2 & Hloop2 & _ & _ & _ & Hck2 & Hfiles2 & Hposted2).
  assert (Hs2 : clock s2 = clock s3 /\ files s2 = files s3
                /\ posted_refresh_tokens s2 = posted_refresh_tokens s3).
  { subst s2. unfold exec. rewrite Hloop, Hloop2.
    destruct (refresh_error second); repeat split. }
  destruct Hs2 as (-> & -> & ->).
  split; [| split].
  - rewrite Hposted2, Hposted1, Hcleared, <- app_assoc. reflexivity.
  - rewrite Hck2, Hck1, Hcleared. reflexivity.
  - intros Hpe Hpath doc Henc. rewrite Hfiles2.
    rewrite Hcfg1, Hpe in Hp2.
    destruct (persistCredentials_steady_files (StoragePath (credentialsConfig s))
                s1 Hsteady1) as (sp' & Hp' & _ & _ & Hfile).
    rewrite Hp2 in Hp'. injection Hp' as <-.
    apply Hfile; [exact Hpath |]. rewrite Hcleared. exact Henc.
Qed.

(** X15.  A callback sends exactly one request to the token endpoint,
    carrying the [code] of the query as it came (also when it is empty)
    and never a refresh token, whatever the state; from a ready state it
    answers the client with exactly one redirect. *)
Theorem callback_sends_code_once (code : string) (resp : post_result) (s : state) :
  let s' := exec (callbackHandler code resp) s in
  posted_codes s' = (posted_codes s ++ [code])%list
  /\ posted_refresh_tokens s' = posted_refresh_tokens s
  /\ (ready s -> length (redirects s') = S (length (redirects s))).
Proof.
  cbv zeta.
  destruct (callbackHandler_posts code resp s) as (Hc & Hr).
  split; [exact Hc |]. split; [exact Hr |].
  intros Hready.
  destruct (callbackHandler_ready code resp s Hready) as (s1 & Heq & _ & _ & Hred & _).
  unfold exec. rewrite Heq. cbn [snd]. rewrite Hred, length_app. cbn. lia.
Qed.

End LoginToRefresh.

(** A login answered with [tok1] (3600 seconds), then one turn of the
    loop: a sleep of 3540 seconds, then a refresh with [rt-456]. *)
Lemma login_then_first_turn_witness :
  timeline (exec (refreshTokenManager addr_graphCredentialStorage [TransportError])
             (exec (callbackHandler "abc" (Response 200 (Json token_tok1))) (configured 5)))
  = [inl (3540 * time_Second); inr "rt-456"].
Proof.
  refine (proj1 (login_then_first_turn "abc" 200 token_tok1 TransportError (configured 5)
                   _ eq_refl _)).
  - repeat split. exists logrus. reflexivity.
  - cbn. lia.
Defined.

(** A session whose refresh is answered with 400, then a second turn. *)
Lemma loop_after_rejected_refresh_witness :
  posted_refresh_tokens
    (exec (refreshTokenManager_loop addr_graphCredentialStorage
             [Response 400 Malformed; TransportError]) (in_session 0))
  = ["rt-456"; ""].
Proof.
  refine (proj1 (loop_after_rejected_refresh 400 Malformed TransportError (in_session 0) _ _)).
  - repeat split. exists logrus. reflexivity.
  - discriminate.
Defined.

(** A callback whose code exchange fails in transport. *)
Lemma callback_error_redirect_witness :
  redirects (exec (callbackHandler "abc" TransportError) (configured 0))
  = [("/error", 400)].
Proof.
  refine (proj1 (callback_error_redirect "abc" TransportError (configured 0) _ _)).
  - split; [exists logrus; reflexivity | reflexivity].
  - left. reflexivity.
Defined.

(** ** The redirect URI (auth.go) *)

Lemma append_assoc (a b c : string) : (a ++ b) ++ c = a ++ (b ++ c).
Proof.
  induction a as [|ch a IH]; [reflexivity |].
  change (String ch ((a ++ b) ++ c) = String ch (a ++ (b ++ c))).
  f_equal. exact IH.
Qed.

(** X17.  One redirect URI throughout: the login redirect (status 302)
    names it in its [redirect_uri] parameter, the code exchange and the
    refresh send the same value in their forms, and it is the base URL
    followed by [/callback]. *)
Theorem redirect_uri_is_consistent (code : string) (resp : post_result) (s : state) :
  let uri := RedirectURI (oauthConfig s) in
  let login_url :=
    "https://login.microsoftonline.com/" ++ TenantID (oauthConfig s)
      ++ "/oauth2/authorize?client_id=" ++ ClientID (oauthConfig s)
      ++ "&response_type=code&redirect_uri=" ++ uri ++ "&scope=Calendars.Read" in
  uri = BaseURL (oauthConfig s) ++ "/callback"
  /\ redirects (exec loginHandler s) = (redirects s ++ [(login_url, 302)])%list
  /\ posted_redirect_uris (exec (callbackHandler code resp) s)
     = (posted_redirect_uris s ++ [uri])%list
  /\ (lock (graphCredentialStorage s) = false ->
      posted_redirect_uris (exec (refreshTokenHandler resp) s)
      = (posted_redirect_uris s ++ [uri])%list).
Proof.
  cbv zeta. split; [| split; [| split]].
  - unfold RedirectURI, BaseURL. rewrite !append_assoc. reflexivity.
  - unfold redirects, exec, loginHandler. go_compute. cbn [trace].
    rewrite omap_app. reflexivity.
  - destruct s as [oa [br pe sp] [lk cr ex au] rn lg fl cf wf clf ef ck tr].
    unfold posted_redirect_uris, exec, callbackHandler.
    destruct lk, lg as [impl|], resp as [|st [|g]]; go_compute.
    all: rewrite ?omap_app; cbn; rewrite ?app_nil_r; reflexivity.
  - destruct s as [oa [br pe sp] [lk cr ex au] rn lg fl cf wf clf ef ck tr].
    cbn [graphCredentialStorage lock]. intros ->.
    unfold posted_redirect_uris, exec, refreshTokenHandler.
    destruct lg as [impl|], resp as [|st [|g]]; go_compute.
    all: repeat (break_match; go_compute).
    all: rewrite ?omap_app; cbn; rewrite ?app_nil_r; reflexivity.
Qed.
